(** * Arc links of @nivo/arcs: a shallow embedding of [packages/arcs/src/links.ts]

    The file embeds [computeArcLink], [useArcLinks] and [useArcLinkLabels]
    and proves the properties their specification states about them.

    - A JavaScript [number] is an IEEE-754 binary64 value: it is modelled by
      Rocq's primitive floats, whose operations round exactly as the
      JavaScript ones do.
    - An object literal is a finite map from property names to values; the
      spread [{...a, ...b}] is a union in which the properties of [b] win.
    - The data array and the datums are objects owned by the caller: they
      live in a store and are handled by reference, so that "the datum
      itself" and "not mutated" can be stated.
    - A callback may read or write the store and may throw: effectful code
      is a function from a store to a completion (normal or throw).
    - [useMemo] evaluates its factory: the dependency lists of the two
      memos of [useArcLinks] name everything their factories read, so that
      a value kept from an earlier pass over the same data is the value
      the factory gives again.
    - [useCallback] takes the callback kept from the previous pass, if any,
      and returns it again unless a dependency changed. *)

From Stdlib Require Import Floats ZArith Lia.
From stdpp Require Import gmap strings list.

(** ** Numbers *)

Abbreviation number := float.

(** [Math.PI], the binary64 value nearest to pi. *)
Definition Math_PI : number := 0x1.921fb54442d18p+1%float.

Definition Math_abs (a : number) : number := PrimFloat.abs a.

(** The comparisons [a < b], [a > b] and [a >= b]; each is [false] as soon
    as an operand is [NaN]. *)
Definition js_lt (a b : number) : bool := PrimFloat.ltb a b.
Definition js_gt (a b : number) : bool := PrimFloat.ltb b a.
Definition js_ge (a b : number) : bool := PrimFloat.leb b a.

(** [n % d] on numbers (ECMAScript Number::remainder): the result has the
    sign of the dividend and is computed exactly. *)
Definition js_rem (n d : number) : number :=
  match Prim2SF n, Prim2SF d with
  | S754_nan, _ | _, S754_nan => nan
  | S754_infinity _, _ => nan
  | _, S754_zero _ => nan
  | _, S754_infinity _ => n
  | S754_zero _, _ => n
  | S754_finite sn mn en, S754_finite _ md ed =>
      let e := Z.min en ed in
      let r := Z.rem (Z.shiftl (Zpos mn) (en - e)) (Z.shiftl (Zpos md) (ed - e)) in
      match r with
      | Z0 => if sn then neg_zero else zero
      | _ => SF2Prim (binary_normalize prec emax (cond_Zopp sn r) e false)
      end
  end.

(** The number [2], as sign, mantissa and exponent. *)
Definition SFtwo : spec_float := S754_finite false 4503599627370496 (-51).

(** ** Data model ([types.ts] and the interfaces of [links.ts]) *)

Record Point := { x : number; y : number }.

Record Arc := {
  startAngle : number;
  endAngle : number;
  innerRadius : number;
  outerRadius : number
}.

(** [side: 'before' | 'after'] *)
Inductive Side := before | after.

Definition Side_string (s : Side) : string :=
  match s with before => "before" | after => "after" end.

Record ArcLink := {
  side : Side;
  points : Point * Point * Point
}.

Definition points_0 (l : ArcLink) : Point := (points l).1.1.
Definition points_1 (l : ArcLink) : Point := (points l).1.2.
Definition points_2 (l : ArcLink) : Point := (points l).2.



(** A datum is an object of the caller, known by its reference. *)
Definition ref := positive.

(** [ArcLinkWithDatum<Datum> extends ArcLink], with [data] the datum. *)
Record ArcLinkWithDatum := {
  to_ArcLink :> ArcLink;
  data : ref
}.

(** [Datum extends DatumWithArc]: a datum carries an arc. *)
Class DatumWithArc (Datum : Type) := arc : Datum -> Arc.

(** ** Objects and the store *)

(** The values found in the objects the pipeline returns. *)
Inductive value :=
  | VNumber (n : number)
  | VString (s : string)
  | VBoolean (b : bool)
  | VPoints (p : Point * Point * Point)
  | VRef (r : ref).

Abbreviation object := (gmap string value).

(** [{...a, ...b}]: the properties of [a], then those of [b] written over
    them. *)
Definition spread (a b : object) : object := b ∪ a.

(** The object a link is: its three own properties. *)
Definition ArcLinkWithDatum_object (l : ArcLinkWithDatum) : object :=
  {[ "side" := VString (Side_string (side l));
     "points" := VPoints (points l);
     "data" := VRef (data l) ]}.

(** The caller's heap: the datums and the arrays of datums. *)
Record store (Datum : Type) := {
  objects : ref -> Datum;
  arrays : ref -> list ref
}.
Arguments objects {Datum} _ _.
Arguments arrays {Datum} _ _.

(** ** Effects: completions over a store *)

Inductive completion (S A : Type) :=
  | Normal (v : A) (s : S)
  | Throw (e : string) (s : S).
Arguments Normal {S A} _ _.
Arguments Throw {S A} _ _.

Definition completion_store {S A} (c : completion S A) : S :=
  match c with Normal _ s => s | Throw _ s => s end.

Definition Eff (S A : Type) := S -> completion S A.

Definition ret {S A} (v : A) : Eff S A := fun s => Normal v s.

Definition bind {S A B} (c : Eff S A) (k : A -> Eff S B) : Eff S B :=
  fun s => match c s with
           | Normal v s' => k v s'
           | Throw e s' => Throw e s'
           end.

Definition gets {S A} (f : S -> A) : Eff S A := fun s => Normal (f s) s.

Definition throw {S A} (e : string) : Eff S A := fun s => Throw e s.

(** [datum.field = ...]: a write to a datum of the store. *)
Definition set_object {Datum} (r : ref) (d : Datum) : Eff (store Datum) unit :=
  fun s => Normal tt {| objects := fun r' => if decide (r' = r) then d else objects s r';
                        arrays := arrays s |}.

Notation "'let*' x ':=' c 'in' k" := (bind c (fun x => k))
  (at level 10, x name, c at level 100, k at level 200).

(** [array.map(callback)]: the callback runs on each element in turn; a
    throw stops the iteration. *)
Fixpoint array_map {S A B} (callback : A -> Eff S B) (array : list A) : Eff S (list B) :=
  match array with
  | [] => ret []
  | a :: array' =>
      let* b := callback a in
      let* bs := array_map callback array' in
      ret (b :: bs)
  end.

(** [useMemo(factory, deps)]: the value of the factory. *)
Definition useMemo {A} (factory : A) : A := factory.

(** [useCallback(callback, deps)]. [cache] is the callback kept from the
    previous pass ([None] in the first pass) and [deps_changed] tells
    whether one of [deps] is another value than in that pass: the callback
    kept is returned again unless a dependency changed. *)
Definition useCallback {A} (cache : option A) (deps_changed : bool) (callback : A) : A :=
  match cache with
  | Some cached => if deps_changed then callback else cached
  | None => callback
  end.

(** ** The functions of [links.ts] *)

Section Links.
(** [getNormalizedAngle] of [./utils]; [positionFromAngle] and
    [radiansToDegrees] of [@nivo/core]. *)
Variable getNormalizedAngle : number -> number.
Variable positionFromAngle : number -> number -> Point.
Variable radiansToDegrees : number -> number.

Definition centerAngle_of (arc : Arc) : number :=
  getNormalizedAngle
    (startAngle arc + (endAngle arc - startAngle arc) / 2 - Math_PI / 2)%float.

Definition computeArcLink (arc : Arc)
    (offset diagonalLength straightLength : number) : ArcLink :=
  let centerAngle := centerAngle_of arc in
  let point0 := positionFromAngle centerAngle (outerRadius arc + offset)%float in
  let point1 :=
    positionFromAngle centerAngle (outerRadius arc + offset + diagonalLength)%float in
  let '(side, point2) :=
    if js_lt centerAngle (Math_PI / 2)%float || js_gt centerAngle (Math_PI * 1.5)%float
    then (after, {| x := (x point1 + straightLength)%float; y := y point1 |})
    else (before, {| x := (x point1 - straightLength)%float; y := y point1 |}) in
  {| side := side; points := (point0, point1, point2) |}.

Context {Datum : Type} `{DatumWithArc Datum}.

(** The first memo of [useArcLinks]: filter, then one link per datum. *)
Definition useArcLinks_links (data : ref)
    (skipAngle offset diagonalLength straightLength : number)
    : Eff (store Datum) (list ArcLinkWithDatum) :=
  gets (fun s =>
    map (fun datum =>
           {| to_ArcLink := computeArcLink (arc (objects s datum))
                        offset diagonalLength straightLength;
              data := datum |})
        (filter (fun datum =>
                   js_ge (Math_abs (radiansToDegrees
                            (endAngle (arc (objects s datum))
                             - startAngle (arc (objects s datum)))%float))
                         skipAngle)
                (arrays s data))).

Definition useArcLinks (data : ref) (skipAngle offset : option number)
    (diagonalLength straightLength : number)
    (computeExtraProps : option (ArcLinkWithDatum -> Eff (store Datum) object))
    : Eff (store Datum) (list object) :=
  let skipAngle := default 0%float skipAngle in
  let offset := default 0.5%float offset in
  let computeExtraProps := default (fun _ => ret ∅) computeExtraProps in
  let* links :=
    useMemo (useArcLinks_links data skipAngle offset diagonalLength straightLength) in
  useMemo (array_map
             (fun link =>
                let* extra := computeExtraProps link in
                ret (spread extra (ArcLinkWithDatum_object link)))
             links).

(** [usePropertyAccessor(label)] and the two [useInheritedColor(..., theme)]:
    functions of the datum, supplied from outside. *)
Variable getLabel getLinkColor getTextColor : ref -> Eff (store Datum) string.

(** The arrow function [useArcLinkLabels] hands to [useCallback]. *)
Definition useArcLinkLabels_callback (textOffset : number)
    : ArcLinkWithDatum -> Eff (store Datum) object :=
  fun link : ArcLinkWithDatum =>
    let position := {| x := x (points_2 link); y := y (points_2 link) |} in
    let '(position, textAnchor) :=
      match side link with
      | before => ({| x := (x position - textOffset)%float; y := y position |}, "end")
      | after => ({| x := (x position + textOffset)%float; y := y position |}, "start")
      end in
    let* label := getLabel (data link) in
    let* linkColor := getLinkColor (data link) in
    let* textColor := getTextColor (data link) in
    ret ({[ "x" := VNumber (x position);
            "y" := VNumber (y position);
            "label" := VString label;
            "linkColor" := VString linkColor;
            "textAnchor" := VString textAnchor;
            "textColor" := VString textColor ]} : object).

(** The callback [useArcLinkLabels] builds for [useArcLinks]:
    [useCallback] with the dependencies
    [[getLabel, getLinkColor, getTextColor]]. [cache] is the callback kept
    from the previous pass and [accessors_changed] tells whether one of the
    three accessors is another function than in that pass; [textOffset] is
    not among the dependencies. *)
Definition useArcLinkLabels_computeExtraProps
    (cache : option (ArcLinkWithDatum -> Eff (store Datum) object))
    (accessors_changed : bool) (textOffset : number)
    : ArcLinkWithDatum -> Eff (store Datum) object :=
  useCallback cache accessors_changed (useArcLinkLabels_callback textOffset).

(** One pass of [useArcLinkLabels]. *)
Definition useArcLinkLabels
    (cache : option (ArcLinkWithDatum -> Eff (store Datum) object))
    (accessors_changed : bool)
    (data : ref) (skipAngle offset : option number)
    (diagonalLength straightLength : number) (textOffset : option number)
    : Eff (store Datum) (list object) :=
  let textOffset := default 0%float textOffset in
  let computeExtraProps :=
    useArcLinkLabels_computeExtraProps cache accessors_changed textOffset in
  useArcLinks data skipAngle offset diagonalLength straightLength
    (Some computeExtraProps).

(** The callback a pass of [useArcLinkLabels] leaves to the next one. *)
Definition useArcLinkLabels_next_cache
    (cache : option (ArcLinkWithDatum -> Eff (store Datum) object))
    (accessors_changed : bool) (textOffset : option number)
    : option (ArcLinkWithDatum -> Eff (store Datum) object) :=
  Some (useArcLinkLabels_computeExtraProps cache accessors_changed
          (default 0%float textOffset)).

(** The caches a pass can find: none in the first pass; afterwards the
    callback of an earlier pass, which is, as long as no accessor changed,
    the arrow function of these accessors for the [textOffset] of the pass
    that built it. *)
Definition useArcLinkLabels_cached
    (cache : option (ArcLinkWithDatum -> Eff (store Datum) object))
    (accessors_changed : bool) : Prop :=
  forall cached, cache = Some cached -> accessors_changed = false ->
    exists textOffset0, cached = useArcLinkLabels_callback textOffset0.
End Links.

(** ** The helpers that [links.ts] imports *)

(** Modelled from the spec: [getNormalizedAngle] of [./utils] is not among
    the sources. "[normalize(angle)] returning [angle mod 2π], mapped into
    [[0, 2π)] regardless of sign (negative inputs wrap forward)". *)
Definition getNormalizedAngle_model (angle : number) : number :=
  let normalizedAngle := js_rem angle (Math_PI * 2)%float in
  if js_lt normalizedAngle 0%float
  then (normalizedAngle + Math_PI * 2)%float
  else normalizedAngle.

(** Modelled from the spec: [radiansToDegrees] of [@nivo/core] is not among
    the sources. The angular span is "converted to degrees". *)
Definition radiansToDegrees_model (radians : number) : number :=
  (180 * radians / Math_PI)%float.

(** Modelled from the spec: [positionFromAngle] of [@nivo/core] is not among
    the sources. "Polar-to-Cartesian conversion: [(angleRadians, radius) ->
    Point], standard convention". [Math.cos] and [Math.sin] are
    implementation-approximated in ECMAScript: they are parameters. *)
Definition positionFromAngle_model (Math_cos Math_sin : number -> number)
    (angle distance : number) : Point :=
  {| x := (Math_cos angle * distance)%float; y := (Math_sin angle * distance)%float |}.

(** ** Sample data *)

Module Sample.
(** One admissible [Math.cos] and [Math.sin]: a truncated power series. *)
Fixpoint series (t k : number) (n : nat) : number :=
  match n with
  | O => 1%float
  | S n' => (1 - t / (k * (k + 1)) * series t (k + 2) n')%float
  end.
Definition cos (a : number) : number := series (a * a)%float 1%float 16.
Definition sin (a : number) : number := (a * series (a * a)%float 2%float 16)%float.

Definition positionFromAngle := positionFromAngle_model cos sin.

(** A pie datum: an id, an arc and a color. *)
Record PieDatum := { id : string; pie_arc : Arc; color : string }.

#[global] Instance PieDatum_arc : DatumWithArc PieDatum := pie_arc.

Definition degrees (d : number) : number := (d * Math_PI / 180)%float.

Definition slice (name : string) (from to : number) : PieDatum :=
  {| id := name;
     pie_arc := {| startAngle := from; endAngle := to;
                   innerRadius := 0%float; outerRadius := 100%float |};
     color := "#e8c1a0" |}.

(** Three slices spanning 5, 15 and 30 degrees, at references 1, 2, 3, and
    the array [[1; 2; 3]] at reference 10. *)
Definition pie : store PieDatum :=
  {| objects := fun r =>
       if decide (r = 1%positive) then slice "a" 0%float (degrees 5)
       else if decide (r = 2%positive) then slice "b" (degrees 5) (degrees 20)
       else slice "c" (degrees 20) (degrees 50);
     arrays := fun r => if decide (r = 10%positive) then [1; 2; 3]%positive else [] |}.

(** The arc of the end-to-end scenario: a quarter from 0 to pi/2. *)
Definition quarter : Arc :=
  {| startAngle := 0%float; endAngle := (Math_PI / 2)%float;
     innerRadius := 0%float; outerRadius := 100%float |}.

(** A symmetric arc of span 1 radian. *)
Definition symmetric : Arc :=
  {| startAngle := (-0.5)%float; endAngle := 0.5%float;
     innerRadius := 0%float; outerRadius := 100%float |}.

Definition getLabel : ref -> Eff (store PieDatum) string :=
  fun r => gets (fun s => id (objects s r)).
Definition getColor : ref -> Eff (store PieDatum) string :=
  fun r => gets (fun s => color (objects s r)).

(** A decoration that collides with the link on [side] and [data]. *)
Definition colliding : ArcLinkWithDatum -> Eff (store PieDatum) object :=
  fun _ => ret ({[ "side" := VString "stale"; "data" := VBoolean false;
                   "color" := VString "red" ]} : object).

(** A callback that writes to the datum it is given. *)
Definition repaint : ArcLinkWithDatum -> Eff (store PieDatum) object :=
  fun l =>
    let* d := gets (fun s => objects s (data l)) in
    let* _ := set_object (data l) {| id := id d; pie_arc := pie_arc d; color := "black" |} in
    ret (∅ : object).

(** A callback that throws. *)
Definition failing : ArcLinkWithDatum -> Eff (store PieDatum) object :=
  fun _ => throw "accessor failed".

(** The pipeline on the pie, with [diagonalLength = 10],
    [straightLength = 20] and the default offset. *)
Definition run (skipAngle : option number)
    (computeExtraProps : option (ArcLinkWithDatum -> Eff (store PieDatum) object))
    : completion (store PieDatum) (list object) :=
  useArcLinks getNormalizedAngle_model positionFromAngle radiansToDegrees_model
    10%positive skipAngle None 10%float 20%float computeExtraProps pie.

(** The link of the symmetric arc, for the datum at reference 1. *)
Definition symmetric_link : ArcLinkWithDatum :=
  {| to_ArcLink := computeArcLink getNormalizedAngle_model positionFromAngle
                     symmetric 0.5%float 10%float 20%float;
     data := 1%positive |}.

(** The link of the quarter arc, for the datum at reference 2. *)
Definition quarter_link : ArcLinkWithDatum :=
  {| to_ArcLink := computeArcLink getNormalizedAngle_model positionFromAngle
                     quarter 0.5%float 10%float 20%float;
     data := 2%positive |}.
End Sample.

(** ** More sample data *)

Module More_samples.
(** A callback that throws on the datum at reference 1 only. *)
Definition picky : ArcLinkWithDatum -> Eff (store Sample.PieDatum) object :=
  fun l => if decide (data l = 1%positive) then throw "no label" else ret (∅ : object).

(** The pie of [Sample.pie] with two more datums: at reference 4 the slice
    at reference 2 with its angles exchanged, at reference 5 a slice whose
    end angle is [NaN]. The arrays are [[1; 2; 3]] at reference 10, [[1]] at
    11, [[2; 3]] at 12 and [[1; 2; 4; 5; 3]] at 20. *)
Definition pies : store Sample.PieDatum :=
  {| objects := fun r =>
       if decide (r = 4%positive)
       then Sample.slice "d" (Sample.degrees 20) (Sample.degrees 5)
       else if decide (r = 5%positive) then Sample.slice "e" 0%float nan
       else objects Sample.pie r;
     arrays := fun r =>
       if decide (r = 11%positive) then [1]%positive
       else if decide (r = 12%positive) then [2; 3]%positive
       else if decide (r = 20%positive) then [1; 2; 4; 5; 3]%positive
       else arrays Sample.pie r |}.

(** The pipeline on [pies], as [Sample.run] on [Sample.pie]. *)
Definition run (input : ref) (skipAngle : option number)
    (computeExtraProps : option (ArcLinkWithDatum -> Eff (store Sample.PieDatum) object))
    : completion (store Sample.PieDatum) (list object) :=
  useArcLinks getNormalizedAngle_model Sample.positionFromAngle radiansToDegrees_model
    input skipAngle None 10%float 20%float computeExtraProps pies.



(** The quarter arc of [Sample.quarter] with other radii. *)
Definition ring : Arc :=
  {| startAngle := 0%float; endAngle := (Math_PI / 2)%float;
     innerRadius := 40%float; outerRadius := 100%float |}.

(** One pass of the labels of [pies], with a label offset. *)
Definition labels (cache : option (ArcLinkWithDatum -> Eff (store Sample.PieDatum) object))
    (accessors_changed : bool) (input : ref) (skipAngle textOffset : option number)
    : completion (store Sample.PieDatum) (list object) :=
  useArcLinkLabels getNormalizedAngle_model Sample.positionFromAngle radiansToDegrees_model
    Sample.getLabel Sample.getColor Sample.getColor
    cache accessors_changed input skipAngle None 10%float 20%float textOffset pies.

(** The callback a first pass with [textOffset] omitted leaves behind. *)
Definition first_pass_cache
    : option (ArcLinkWithDatum -> Eff (store Sample.PieDatum) object) :=
  useArcLinkLabels_next_cache Sample.getLabel Sample.getColor Sample.getColor
    None true None.
End More_samples.

(** * Facts about numbers *)

Section Number_facts.
Local Open Scope Z_scope.

Lemma SFabs_round_aux s m e l :
  SFabs (binary_round_aux prec emax s m e l) = binary_round_aux prec emax false m e l.
Proof.
  unfold binary_round_aux.
  destruct (shr_fexp prec emax m e l) as [mrs e'].
  destruct (shr_fexp prec emax _ e' loc_Exact) as [mrs' e''].
  destruct (shr_m mrs'); try reflexivity.
  destruct (_ <=? _)%Z; reflexivity.
Qed.

(** [Math.abs] goes through a product with a positive constant... *)
Lemma Math_abs_mul_pos (c r : number) :
  (exists m e, Prim2SF c = S754_finite false m e) ->
  Math_abs (c * r) = (c * Math_abs r)%float.
Proof.
  intros (m & e & Hc). apply Prim2SF_inj. unfold Math_abs.
  rewrite abs_spec, !mul_spec, abs_spec, Hc.
  destruct (Prim2SF r) as [[]|[]| |[] m' e']; try reflexivity;
    unfold SF64mul; simpl; apply SFabs_round_aux.
Qed.

(** ... and through a quotient by a positive constant. *)
Lemma Math_abs_div_pos (r c : number) :
  (exists m e, Prim2SF c = S754_finite false m e) ->
  Math_abs (r / c) = (Math_abs r / c)%float.
Proof.
  intros (m & e & Hc). apply Prim2SF_inj. unfold Math_abs.
  rewrite abs_spec, !div_spec, abs_spec, Hc.
  destruct (Prim2SF r) as [[]|[]| |[] m' e']; try reflexivity;
    unfold SF64div; simpl;
    destruct (SFdiv_core_binary _ _ _ _ _ _) as [[mz ez] lz]; apply SFabs_round_aux.
Qed.

(** The conversion to degrees commutes with the absolute value, for every
    number, [NaN] and the infinities included. *)
Lemma radiansToDegrees_model_abs (r : number) :
  Math_abs (radiansToDegrees_model r) = radiansToDegrees_model (Math_abs r).
Proof.
  unfold radiansToDegrees_model.
  rewrite Math_abs_div_pos, Math_abs_mul_pos; [reflexivity| |].
  - eexists _, _. vm_compute. reflexivity.
  - eexists _, _. vm_compute. reflexivity.
Qed.

(** [Math.abs(a) >= 0] holds exactly when [a] is not [NaN]. *)
Lemma js_ge_abs_zero (a : number) : js_ge (Math_abs a) 0%float = negb (is_nan a).
Proof.
  unfold js_ge, Math_abs, is_nan.
  rewrite FloatAxioms.leb_spec, FloatAxioms.eqb_spec, abs_spec.
  change (Prim2SF 0) with (S754_zero false).
  destruct (Prim2SF a) as [[]|[]| |[] m e]; try reflexivity.
  all: unfold SFeqb, SFcompare; rewrite Z.compare_refl, Pos.compare_cont_refl; reflexivity.
Qed.

Lemma bounded_cases m e :
  bounded prec emax m e = true ->
  (Zpos (digits2_pos m) = 53 /\ -1074 <= e <= 971)
  \/ (Zpos (digits2_pos m) < 53 /\ e = -1074).
Proof.
  unfold bounded, canonical_mantissa, fexp, SpecFloat.emin, prec, emax.
  intros [H1 H2]%andb_prop.
  apply Z.eqb_eq in H1. apply Z.leb_le in H2. lia.
Qed.

Lemma div_eucl_exact a b q : 0 < b -> a = b * q -> Z.div_eucl a b = (q, 0).
Proof.
  intros Hb ->.
  assert (Hq : (b * q) / b = q) by (rewrite Z.mul_comm; apply Z.div_mul; lia).
  assert (Hr : (b * q) mod b = 0) by (rewrite Z.mul_comm; apply Z.mod_mul; lia).
  unfold Z.div, Z.modulo in Hq, Hr.
  destruct (Z.div_eucl (b * q) b) as [q' r']. congruence.
Qed.

(** Rounding an exact mantissa that is already canonical changes nothing. *)
Lemma round_aux_canonical s m e :
  bounded prec emax m e = true ->
  binary_round_aux prec emax s (Zpos m) e loc_Exact = S754_finite s m e.
Proof.
  intros Hb. pose proof Hb as Hb'.
  unfold bounded, canonical_mantissa in Hb. apply andb_prop in Hb as [H1 H2].
  apply Z.eqb_eq in H1.
  unfold binary_round_aux, shr_fexp. simpl Zdigits2.
  rewrite H1, Z.sub_diag. simpl. rewrite H1, Z.sub_diag. simpl.
  rewrite H2. reflexivity.
Qed.

(** One bit too many: the mantissa [m~0] one exponent below. *)
Lemma round_aux_double s m e :
  bounded prec emax m e = true -> Zpos (digits2_pos m) = 53 ->
  binary_round_aux prec emax s (Zpos m~0) (e - 1) loc_Exact = S754_finite s m e.
Proof.
  intros Hb Hd. destruct (bounded_cases _ _ Hb) as [[_ He]|[? _]]; [|lia].
  pose proof Hb as Hb'.
  unfold bounded, canonical_mantissa in Hb. apply andb_prop in Hb as [H1 H2].
  apply Z.eqb_eq in H1.
  unfold binary_round_aux, shr_fexp. simpl Zdigits2.
  assert (fexp prec emax (Z.pos (Pos.succ (digits2_pos m)) + (e - 1)) - (e - 1) = 1) as ->.
  { rewrite Pos2Z.inj_succ, Hd. unfold fexp, SpecFloat.emin, prec, emax. lia. }
  simpl. replace (e - 1 + 1) with e by lia.
  rewrite H1, Z.sub_diag. simpl. rewrite H2. reflexivity.
Qed.


Lemma cond_Zopp_sub s m :
  cond_Zopp s (Zpos m) - cond_Zopp (negb s) (Zpos m)
  = cond_Zopp s (Zpos m~0).
Proof. destruct s; simpl cond_Zopp; lia. Qed.

Lemma cond_Zopp_add s m :
  cond_Zopp (negb s) (Zpos m) + cond_Zopp s (Zpos m) = 0.
Proof. destruct s; simpl cond_Zopp; lia. Qed.

Lemma binary_normalize_cond s m e :
  binary_normalize prec emax (cond_Zopp s (Zpos m)) e false = binary_round prec emax s m e.
Proof. destruct s; reflexivity. Qed.

(** [h - (-h)] *)
Lemma SFsub_opp_finite s m e :
  bounded prec emax m e = true ->
  SF64sub (S754_finite s m e) (SFopp (S754_finite s m e))
  = if Zpos (digits2_pos m) =? 53
    then if e + 1 <=? 971 then S754_finite s m (e + 1) else S754_infinity s
    else S754_finite s m~0 e.
Proof.
  intros Hb. unfold SF64sub, SFsub, SFopp.
  rewrite Z.min_id. unfold shl_align. rewrite Z.sub_diag. simpl fst.
  rewrite cond_Zopp_sub, binary_normalize_cond.
  unfold binary_round. simpl digits2_pos. rewrite Pos2Z.inj_succ.
  destruct (bounded_cases _ _ Hb) as [[Hd He]|[Hd He]].
  - rewrite Hd. simpl (53 =? 53).
    assert (fexp prec emax (Z.succ 53 + e) = e + 1) as ->
      by (unfold fexp, SpecFloat.emin, prec, emax; lia).
    unfold shl_align. replace (e + 1 - e) with 1 by lia.
    unfold binary_round_aux, shr_fexp. simpl Zdigits2. rewrite Pos2Z.inj_succ, Hd.
    assert (fexp prec emax (Z.succ 53 + e) - e = 1) as ->
      by (unfold fexp, SpecFloat.emin, prec, emax; lia).
    simpl. rewrite Hd.
    assert (fexp prec emax (53 + (e + 1)) - (e + 1) = 0) as ->
      by (unfold fexp, SpecFloat.emin, prec, emax; lia).
    simpl. reflexivity.
  - destruct (Z.eqb_spec (Zpos (digits2_pos m)) 53) as [?|_]; [lia|].
    assert (fexp prec emax (Z.succ (Zpos (digits2_pos m)) + e) = e) as Hf
      by (unfold fexp, SpecFloat.emin, prec, emax; lia).
    rewrite Hf. unfold shl_align. rewrite Z.sub_diag.
    apply round_aux_canonical.
    unfold bounded, canonical_mantissa. simpl digits2_pos.
    rewrite Pos2Z.inj_succ, Hf, Z.eqb_refl. simpl. apply Z.leb_le. 
    unfold prec, emax. lia.
Qed.

Lemma xorb_false_r' s : xorb s false = s.
Proof. destruct s; reflexivity. Qed.

Lemma SFdiv_two_normal s m e :
  bounded prec emax m e = true -> Zpos (digits2_pos m) = 53 ->
  SF64div (S754_finite s m (e + 1)) SFtwo = S754_finite s m e.
Proof.
  intros Hb Hd. destruct (bounded_cases _ _ Hb) as [[_ He]|[? _]]; [|lia].
  unfold SF64div, SFdiv, SFtwo, SFdiv_core_binary. rewrite xorb_false_r'.
  change (Zdigits2 (Zpos 4503599627370496)) with 53.
  change (Zdigits2 (Zpos m)) with (Zpos (digits2_pos m)). rewrite Hd.
  destruct (Z.eq_dec e (-1074)) as [->|Hne].
  - assert (Z.min (fexp prec emax (53 + (-1074 + 1) - (53 + -51))) (-1074 + 1 - -51) = -1074) as ->
      by reflexivity.
    change (-1074 + 1 - -51 - -1074) with 52.
    rewrite (div_eucl_exact _ _ (Zpos m)); [|lia|rewrite Z.shiftl_mul_pow2 by lia; cbn; lia].
    change (new_location 4503599627370496 0) with loc_Exact.
    apply round_aux_canonical, Hb.
  - assert (Z.min (fexp prec emax (53 + (e + 1) - (53 + -51))) (e + 1 - -51) = e - 1) as ->
      by (unfold fexp, SpecFloat.emin, prec, emax; lia).
    replace (e + 1 - -51 - (e - 1)) with 53 by lia.
    rewrite (div_eucl_exact _ _ (Zpos m~0)); [|lia|rewrite Z.shiftl_mul_pow2 by lia; cbn; lia].
    change (new_location 4503599627370496 0) with loc_Exact.
    apply round_aux_double; assumption.
Qed.

Lemma SFdiv_two_subnormal s m e :
  bounded prec emax m e = true -> Zpos (digits2_pos m) < 53 ->
  SF64div (S754_finite s m~0 e) SFtwo = S754_finite s m e.
Proof.
  intros Hb Hd. destruct (bounded_cases _ _ Hb) as [[? _]|[_ ->]]; [lia|].
  unfold SF64div, SFdiv, SFtwo, SFdiv_core_binary. rewrite xorb_false_r'.
  change (Zdigits2 (Zpos 4503599627370496)) with 53.
  change (Zdigits2 (Zpos m~0)) with (Zpos (Pos.succ (digits2_pos m))).
  rewrite Pos2Z.inj_succ.
  assert (Z.min (fexp prec emax (Z.succ (Zpos (digits2_pos m)) + -1074 - (53 + -51)))
                (-1074 - -51) = -1074) as ->
    by (unfold fexp, SpecFloat.emin, prec, emax; lia).
  change (-1074 - -51 - -1074) with 51.
  rewrite (div_eucl_exact _ _ (Zpos m)); [|lia|rewrite Z.shiftl_mul_pow2 by lia; cbn; lia].
  change (new_location 4503599627370496 0) with loc_Exact.
  apply round_aux_canonical, Hb.
Qed.

Lemma SF_float (a : number) (v : spec_float) : Prim2SF a = v -> a = SF2Prim v.
Proof. intros <-. symmetry. apply SF2Prim_Prim2SF. Qed.

Lemma is_finite_SF (a : number) :
  is_finite a = match Prim2SF a with
                | S754_nan | S754_infinity _ => false
                | _ => true
                end.
Proof.
  unfold is_finite, is_nan, is_infinity.
  rewrite !FloatAxioms.eqb_spec, abs_spec.
  change (Prim2SF infinity) with (S754_infinity false).
  destruct (Prim2SF a) as [[]|[]| |[] m e]; try reflexivity.
  all: unfold SFeqb, SFcompare; rewrite Z.compare_refl, Pos.compare_cont_refl; reflexivity.
Qed.

Lemma SFadd_opp_finite s m e :
  SF64add (SFopp (S754_finite s m e)) (S754_finite s m e) = S754_zero false.
Proof.
  unfold SF64add, SFadd, SFopp. cbv zeta.
  rewrite Z.min_id. unfold shl_align. rewrite Z.sub_diag. simpl fst.
  rewrite cond_Zopp_add. reflexivity.
Qed.

(** The bisector of a symmetric arc, before the quarter turn: it is [+0]
    unless the span overflows. *)
Lemma symmetric_bisector (h : number) :
  let span := (h - (- h))%float in
  let raw := (- h + span / 2)%float in
  if is_finite span then raw = 0%float
  else raw = nan \/ raw = infinity \/ raw = neg_infinity.
Proof.
  intros span raw.
  assert (Hs : Prim2SF span = SF64sub (Prim2SF h) (SFopp (Prim2SF h)))
    by (unfold span; rewrite sub_spec, opp_spec; reflexivity).
  assert (Hr : Prim2SF raw
               = SF64add (SFopp (Prim2SF h)) (SF64div (Prim2SF span) SFtwo))
    by (unfold raw; rewrite add_spec, opp_spec, div_spec; reflexivity).
  rewrite is_finite_SF.
  pose proof (Prim2SF_valid h) as Hv.
  destruct (Prim2SF h) as [s|s| |s m e] eqn:Hh.
  - rewrite Hs in *.
    destruct s; simpl in Hr |- *; apply SF_float in Hr; exact Hr.
  - rewrite Hs in *.
    destruct s; simpl in Hr |- *; apply SF_float in Hr; left; exact Hr.
  - rewrite Hs in *. simpl in Hr |- *. apply SF_float in Hr. left; exact Hr.
  - simpl in Hv. rewrite SFsub_opp_finite in Hs by exact Hv.
    destruct (Z.eqb_spec (Zpos (digits2_pos m)) 53) as [Hd|Hd].
    + destruct (Z.leb_spec (e + 1) 971) as [He|He]; rewrite Hs in *.
      * rewrite SFdiv_two_normal in Hr by assumption.
        rewrite SFadd_opp_finite in Hr. apply SF_float in Hr. exact Hr.
      * destruct s; simpl in Hr; apply SF_float in Hr; auto.
    + rewrite Hs in *.
      destruct (bounded_cases _ _ Hv) as [[? _]|[Hd' _]]; [contradiction|].
      rewrite SFdiv_two_subnormal in Hr by assumption.
      rewrite SFadd_opp_finite in Hr. apply SF_float in Hr. exact Hr.
Qed.
Lemma is_nan_SF (a : number) :
  is_nan a = match Prim2SF a with S754_nan => true | _ => false end.
Proof.
  unfold is_nan. rewrite FloatAxioms.eqb_spec.
  destruct (Prim2SF a) as [[]|[]| |[] m e]; try reflexivity.
  all: unfold SFeqb, SFcompare; rewrite Z.compare_refl, Pos.compare_cont_refl; reflexivity.
Qed.

Lemma iter_pos_invariant {A} (P : A -> Prop) (f : A -> A) (n : positive) (a : A) :
  (forall b, P b -> P (f b)) -> P a -> P (SpecFloat.iter_pos f n a).
Proof.
  intros Hf. revert a. induction n as [n IH|n IH|]; intros a Ha; simpl; auto.
Qed.

Lemma shr_1_nonneg (mrs : shr_record) : 0 <= shr_m mrs -> 0 <= shr_m (shr_1 mrs).
Proof.
  destruct mrs as [m r s]. simpl.
  destruct m as [|[p|p|]|[p|p|]]; simpl; lia.
Qed.

Lemma shr_fexp_nonneg (m e : Z) (l : location) :
  0 <= m -> 0 <= shr_m (fst (shr_fexp prec emax m e l)).
Proof.
  intros Hm. unfold shr_fexp, shr.
  assert (Hrec : 0 <= shr_m (shr_record_of_loc m l)) by (by destruct l as [|[]]).
  destruct (fexp prec emax (Zdigits2 m + e) - e); simpl; try done.
  apply (iter_pos_invariant (fun mrs => 0 <= shr_m mrs)); [apply shr_1_nonneg|done].
Qed.

(** Rounding a non-negative mantissa never gives [NaN]. *)
Lemma binary_round_aux_not_nan (s : bool) (m e : Z) (l : location) :
  0 <= m -> binary_round_aux prec emax s m e l <> S754_nan.
Proof.
  intros Hm. unfold binary_round_aux.
  pose proof (shr_fexp_nonneg m e l Hm) as H1.
  destruct (shr_fexp prec emax m e l) as [mrs' e']. simpl in H1.
  assert (H2 : 0 <= round_nearest_even (shr_m mrs') (loc_of_shr_record mrs')).
  { unfold round_nearest_even.
    destruct (loc_of_shr_record mrs') as [|[]]; try destruct (Z.even _); lia. }
  pose proof (shr_fexp_nonneg _ e' loc_Exact H2) as H3.
  destruct (shr_fexp prec emax _ e' loc_Exact) as [mrs'' e'']. simpl in H3.
  destruct (shr_m mrs''); [done| |lia].
  by destruct (_ <=? _).
Qed.

Lemma binary_normalize_not_nan (z e : Z) (sz : bool) :
  binary_normalize prec emax z e sz <> S754_nan.
Proof.
  destruct z as [|m|m]; [done| |]; simpl; unfold binary_round;
    destruct (shl_align _ _ _) as [mz ez]; by apply binary_round_aux_not_nan.
Qed.




Lemma is_nan_sub_finite_l (a b : number) :
  is_finite a = true -> is_nan (a - b) = is_nan b.
Proof.
  rewrite is_finite_SF, !is_nan_SF, sub_spec.
  destruct (Prim2SF a) as [sa|sa| |sa ma ea], (Prim2SF b) as [sb|sb| |sb mb eb];
    try done; try (by destruct sa, sb).
  intros _. unfold SF64sub, SFsub. cbv zeta.
  pose proof (binary_normalize_not_nan
                (cond_Zopp sa (Z.pos (shl_align ma ea (Z.min ea eb)).1)
                 - cond_Zopp sb (Z.pos (shl_align mb eb (Z.min ea eb)).1))
                (Z.min ea eb) false) as Hn.
  by destruct (binary_normalize _ _ _ _ _).
Qed.

End Number_facts.

(** * Facts about effects *)

Section Effect_facts.
Context {S A B : Type}.
Implicit Types (callback : A -> Eff S B) (array : list A) (s : S).

(** A normal completion of [array.map]: every call completed normally, one
    result per element, in order. *)
Lemma array_map_Normal callback array s bs s' :
  array_map callback array s = Normal bs s' ->
  Forall2 (fun a b => exists s1 s2, callback a s1 = Normal b s2) array bs.
Proof.
  revert s bs s'. induction array as [|a array IH]; intros s bs s'; simpl.
  - unfold ret. intros [= <- _]. constructor.
  - unfold bind at 1. destruct (callback a s) as [b s1|e s1] eqn:Ha; [|discriminate].
    unfold bind at 1. destruct (array_map callback array s1) as [bs' s2|e s2] eqn:Hl;
      [|discriminate].
    unfold ret. intros [= <- _]. constructor; [by exists s, s1|by eapply IH].
Qed.



(** [array.map] leaves the store as it is when every call does. *)
Lemma array_map_store callback array s :
  (forall a s0, completion_store (callback a s0) = s0) ->
  completion_store (array_map callback array s) = s.
Proof.
  intros Hc. revert s. induction array as [|a array IH]; intros s; simpl.
  - done.
  - unfold bind at 1. specialize (Hc a s).
    destruct (callback a s) as [b s1|e s1]; simpl in Hc; subst s1; [|done].
    unfold bind at 1. specialize (IH s).
    destruct (array_map callback array s) as [bs s2|e s2]; simpl in IH; by subst s2.
Qed.
End Effect_facts.

(** * Properties of [computeArcLink] *)

Section Links_properties.
Variable getNormalizedAngle : number -> number.
Variable positionFromAngle : number -> number -> Point.

Abbreviation computeLink := (computeArcLink getNormalizedAngle positionFromAngle).
Abbreviation centerAngle := (centerAngle_of getNormalizedAngle).

Lemma computeArcLink_after (a : Arc) (offset diagonalLength straightLength : number) :
  js_lt (centerAngle a) (Math_PI / 2)%float || js_gt (centerAngle a) (Math_PI * 1.5)%float = true ->
  let l := computeLink a offset diagonalLength straightLength in
  side l = after /\ x (points_2 l) = (x (points_1 l) + straightLength)%float.
Proof. intros Hc. unfold computeArcLink, points_1, points_2. rewrite Hc. by simpl. Qed.

Lemma computeArcLink_before (a : Arc) (offset diagonalLength straightLength : number) :
  js_lt (centerAngle a) (Math_PI / 2)%float || js_gt (centerAngle a) (Math_PI * 1.5)%float = false ->
  let l := computeLink a offset diagonalLength straightLength in
  side l = before /\ x (points_2 l) = (x (points_1 l) - straightLength)%float.
Proof. intros Hc. unfold computeArcLink, points_1, points_2. rewrite Hc. by simpl. Qed.

(** C5. [computeArcLink] takes as bisecting angle the normalization of
    [startAngle + (endAngle - startAngle) / 2 - PI / 2]; [points[0]] is the
    conversion of that angle at radius [outerRadius + offset] and
    [points[1]] its conversion at radius
    [outerRadius + offset + diagonalLength]. *)
Theorem computeArcLink_points_0_1 (a : Arc) (offset diagonalLength straightLength : number) :
  let midAngle :=
    getNormalizedAngle
      (startAngle a + (endAngle a - startAngle a) / 2 - Math_PI / 2)%float in
  centerAngle a = midAngle
  ∧ points_0 (computeLink a offset diagonalLength straightLength)
    = positionFromAngle midAngle (outerRadius a + offset)%float
  ∧ points_1 (computeLink a offset diagonalLength straightLength)
    = positionFromAngle midAngle (outerRadius a + offset + diagonalLength)%float.
Proof.
  unfold computeArcLink, centerAngle_of, points_0, points_1.
  destruct (_ || _); simpl; auto.
Qed.

(** C7. The last segment of a link is horizontal: [points[2].y] is
    [points[1].y], and [points[2].x] is [points[1].x] plus or minus
    [straightLength], according to the side. *)
Theorem computeArcLink_last_segment_horizontal
    (a : Arc) (offset diagonalLength straightLength : number) :
  let l := computeLink a offset diagonalLength straightLength in
  y (points_2 l) = y (points_1 l)
  ∧ x (points_2 l)
    = match side l with
      | after => (x (points_1 l) + straightLength)%float
      | before => (x (points_1 l) - straightLength)%float
      end.
Proof.
  unfold computeArcLink, points_1, points_2.
  destruct (_ || _); simpl; auto.
Qed.
End Links_properties.

(** The normalized bisector of a symmetric arc is [1.5 * PI] when the span
    is finite, [NaN] when it overflows. *)
Lemma symmetric_centerAngle (h ir or : number) :
  let a := {| startAngle := (- h)%float; endAngle := h;
              innerRadius := ir; outerRadius := or |} in
  centerAngle_of getNormalizedAngle_model a
  = if is_finite (h - (- h))%float then (Math_PI * 1.5)%float else nan.
Proof.
  intros a. unfold centerAngle_of, a. simpl.
  pose proof (symmetric_bisector h) as Hb. simpl in Hb.
  destruct (is_finite (h - - h)%float).
  - rewrite Hb. vm_compute. reflexivity.
  - destruct Hb as [-> | [-> | ->]]; vm_compute; reflexivity.
Qed.

(** C2. [computeArcLink] answers [side = 'after'], with
    [points[2].x = points[1].x + straightLength], exactly when the
    normalized bisecting angle is [< PI / 2] or [> 1.5 * PI]; otherwise it
    answers [side = 'before'], with
    [points[2].x = points[1].x - straightLength]. The bounds [PI / 2] and
    [1.5 * PI] themselves are on the 'before' side, and a symmetric arc
    ([startAngle = -span / 2], [endAngle = span / 2]) is one such case: its
    normalized bisecting angle is [1.5 * PI]. *)
Theorem computeArcLink_side
    (getNormalizedAngle : number -> number) (positionFromAngle : number -> number -> Point)
    (a : Arc) (offset diagonalLength straightLength : number) :
  let l := computeArcLink getNormalizedAngle positionFromAngle a
             offset diagonalLength straightLength in
  let centerAngle := centerAngle_of getNormalizedAngle a in
  let right := js_lt centerAngle (Math_PI / 2)%float
               || js_gt centerAngle (Math_PI * 1.5)%float in
  (side l = after ∧ x (points_2 l) = (x (points_1 l) + straightLength)%float
   ↔ right = true)
  ∧ (side l = before ∧ x (points_2 l) = (x (points_1 l) - straightLength)%float
     ↔ right = false)
  ∧ (centerAngle = (Math_PI / 2)%float ∨ centerAngle = (Math_PI * 1.5)%float →
     side l = before ∧ x (points_2 l) = (x (points_1 l) - straightLength)%float)
  ∧ (∀ h : number,
       let symmetric := {| startAngle := (- h)%float; endAngle := h;
                           innerRadius := innerRadius a;
                           outerRadius := outerRadius a |} in
       let l' := computeArcLink getNormalizedAngle_model positionFromAngle symmetric
                   offset diagonalLength straightLength in
       (is_finite (h - (- h))%float = true →
        centerAngle_of getNormalizedAngle_model symmetric = (Math_PI * 1.5)%float)
       ∧ side l' = before
       ∧ x (points_2 l') = (x (points_1 l') - straightLength)%float).
Proof.
  intros l centerAngle right.
  pose proof (computeArcLink_after getNormalizedAngle positionFromAngle a
                offset diagonalLength straightLength) as Hafter.
  pose proof (computeArcLink_before getNormalizedAngle positionFromAngle a
                offset diagonalLength straightLength) as Hbefore.
  fold centerAngle right l in Hafter, Hbefore.
  split; [|split; [|split]].
  - split; [|exact Hafter].
    intros [Hs _]. destruct right; [done|].
    destruct (Hbefore eq_refl) as [Hs' _]. congruence.
  - split; [|exact Hbefore].
    intros [Hs _]. destruct right; [|done].
    destruct (Hafter eq_refl) as [Hs' _]. congruence.
  - intros Hc. apply Hbefore. unfold right.
    destruct Hc as [-> | ->]; vm_compute; reflexivity.
  - intros h symmetric l'.
    pose proof (symmetric_centerAngle h (innerRadius a) (outerRadius a)) as Hc.
    fold symmetric in Hc. simpl in Hc.
    split.
    + intros Hf. by rewrite Hc, Hf.
    + apply computeArcLink_before. rewrite Hc.
      destruct (is_finite _); vm_compute; reflexivity.
Qed.

(** * Properties of the pipeline *)

Section Pipeline_properties.
Variable getNormalizedAngle : number -> number.
Variable positionFromAngle : number -> number -> Point.
Variable radiansToDegrees : number -> number.
Context {Datum : Type} `{DatumWithArc Datum}.

Implicit Types (s : store Datum) (input datum : ref) (out : list object).
Implicit Types (skipAngle offset : option number) (diagonalLength straightLength : number).
Implicit Types (computeExtraProps : option (ArcLinkWithDatum -> Eff (store Datum) object)).

Abbreviation pipeline :=
  (useArcLinks getNormalizedAngle positionFromAngle radiansToDegrees).

(** The span of a datum in degrees, as the filter computes it. *)
Abbreviation span_degrees s datum :=
  (Math_abs (radiansToDegrees
     (PrimFloat.sub (endAngle (arc (objects s datum)))
                    (startAngle (arc (objects s datum)))))).

(** The datums the filter keeps. *)
Abbreviation survivors s input skipAngle :=
  (filter (λ datum, js_ge (span_degrees s datum) (default 0%float skipAngle))
          (arrays s input)).

(** The link the geometry pass builds for a datum. *)
Abbreviation link_of s offset diagonalLength straightLength :=
  (λ datum,
     {| to_ArcLink := computeArcLink getNormalizedAngle positionFromAngle
                        (arc (objects s datum)) (default 0.5%float offset)
                        diagonalLength straightLength;
        data := datum |}).

Abbreviation callback_of computeExtraProps :=
  (default (λ _ : ArcLinkWithDatum, ret (S := store Datum) (∅ : object)) computeExtraProps).

Lemma useArcLinks_links_run input (skip off : number) diagonalLength straightLength s :
  useArcLinks_links getNormalizedAngle positionFromAngle radiansToDegrees
    input skip off diagonalLength straightLength s
  = Normal (link_of s (Some off) diagonalLength straightLength
              <$> survivors s input (Some skip)) s.
Proof. reflexivity. Qed.

(** The pipeline is the decoration pass run over the links of the survivors. *)
Lemma useArcLinks_run input skipAngle offset diagonalLength straightLength
    computeExtraProps s :
  pipeline input skipAngle offset diagonalLength straightLength computeExtraProps s
  = array_map
      (λ link, let* extra := callback_of computeExtraProps link in
               ret (spread extra (ArcLinkWithDatum_object link)))
      (link_of s offset diagonalLength straightLength <$> survivors s input skipAngle)
      s.
Proof. reflexivity. Qed.

(** The properties of a link are those of the merged object. *)
Lemma spread_link (extra : object) (link : ArcLinkWithDatum) (k : string) :
  is_Some (ArcLinkWithDatum_object link !! k) ->
  spread extra (ArcLinkWithDatum_object link) !! k = ArcLinkWithDatum_object link !! k.
Proof. apply lookup_union_l'. Qed.

Lemma spread_link_own (extra : object) (link : ArcLinkWithDatum) :
  let o := spread extra (ArcLinkWithDatum_object link) in
  o !! "side" = Some (VString (Side_string (side link)))
  ∧ o !! "points" = Some (VPoints (points link))
  ∧ o !! "data" = Some (VRef (data link)).
Proof.
  intros o. unfold o. rewrite !spread_link by (by eexists).
  done.
Qed.

(** What a normal completion of the pipeline returns: one object per
    survivor, in order, each the spread of the decoration and of the link. *)
Lemma useArcLinks_Normal input skipAngle offset diagonalLength straightLength
    computeExtraProps s out s' :
  pipeline input skipAngle offset diagonalLength straightLength computeExtraProps s
  = Normal out s' ->
  Forall2
    (λ datum o,
       ∃ extra s1 s2,
         callback_of computeExtraProps
           (link_of s offset diagonalLength straightLength datum) s1
         = Normal extra s2
         ∧ o = spread extra
                 (ArcLinkWithDatum_object
                    (link_of s offset diagonalLength straightLength datum)))
    (survivors s input skipAngle) out.
Proof.
  rewrite useArcLinks_run. intros Hrun%array_map_Normal.
  apply Forall2_fmap_l in Hrun. eapply Forall2_impl; [exact Hrun|].
  intros datum o (s1 & s2 & Ho). simpl in Ho. unfold bind in Ho.
  destruct (callback_of computeExtraProps _ s1) as [extra s3|e s3] eqn:He;
    [|discriminate].
  unfold ret in Ho. injection Ho as <- <-. by exists extra, s1, s3.
Qed.
(** The [data] fields of the output are the references of the survivors. *)
Lemma useArcLinks_data input skipAngle offset diagonalLength straightLength
    computeExtraProps s out s' :
  pipeline input skipAngle offset diagonalLength straightLength computeExtraProps s
  = Normal out s' ->
  (λ o : object, o !! "data") <$> out
  = (λ datum, Some (VRef datum)) <$> survivors s input skipAngle.
Proof.
  intros Hrun%useArcLinks_Normal.
  set (kept := survivors s input skipAngle) in *. clearbody kept.
  induction Hrun as [|datum o l k (extra & s1 & s2 & _ & ->) _ IH]; [done|].
  rewrite !fmap_cons, IH. f_equal. apply spread_link_own.
Qed.

(** C1. Whatever [computeExtraProps] returns for a link, the merged element
    carries the link's own value for every key the link has ([side],
    [points], [data]), in particular for a key that the returned record has
    too: the merge is [{...extra, ...link}]. *)
Theorem useArcLinks_link_fields_win input skipAngle offset diagonalLength straightLength
    computeExtraProps s out s' :
  pipeline input skipAngle offset diagonalLength straightLength computeExtraProps s
  = Normal out s' ->
  Forall2
    (λ datum o,
       let link := link_of s offset diagonalLength straightLength datum in
       ∃ extra s1 s2,
         callback_of computeExtraProps link s1 = Normal extra s2
         ∧ o = spread extra (ArcLinkWithDatum_object link)
         ∧ (∀ k, is_Some (ArcLinkWithDatum_object link !! k) →
                 is_Some (extra !! k) →
                 o !! k = ArcLinkWithDatum_object link !! k)
         ∧ o !! "side" = Some (VString (Side_string (side link)))
         ∧ o !! "points" = Some (VPoints (points link))
         ∧ o !! "data" = Some (VRef (data link)))
    (survivors s input skipAngle) out.
Proof.
  intros Hrun%useArcLinks_Normal. eapply Forall2_impl; [exact Hrun|].
  intros datum o (extra & s1 & s2 & Hcall & ->). simpl.
  exists extra, s1, s2. split; [exact Hcall|]. split; [reflexivity|].
  split; [|apply spread_link_own].
  intros k Hlink _. by apply spread_link.
Qed.

(** C3. An input item has an element in the output exactly when the span
    of its arc, [|endAngle - startAngle|] in degrees, is [>= skipAngle]; the
    other items leave nothing in the output. The conversion to degrees is
    taken to commute with the absolute value, as the multiplication by
    [180 / PI] does. *)
Theorem useArcLinks_skipAngle
    (radiansToDegrees_abs :
       ∀ r, Math_abs (radiansToDegrees r) = radiansToDegrees (Math_abs r))
    input (skipAngle : number) offset diagonalLength straightLength
    computeExtraProps s out s' :
  pipeline input (Some skipAngle) offset diagonalLength straightLength
    computeExtraProps s = Normal out s' ->
  let wide datum :=
    js_ge (radiansToDegrees
             (Math_abs (endAngle (arc (objects s datum))
                        - startAngle (arc (objects s datum)))%float))
          skipAngle in
  (λ o : object, o !! "data") <$> out
  = (λ datum, Some (VRef datum)) <$> filter (λ datum, wide datum) (arrays s input)
  ∧ (∀ datum,
       (∃ o, o ∈ out ∧ o !! "data" = Some (VRef datum))
       ↔ datum ∈ arrays s input ∧ wide datum = true).
Proof.
  intros Hrun wide. apply useArcLinks_data in Hrun.
  assert (Hfilter : survivors s input (Some skipAngle)
                    = filter (λ datum, wide datum) (arrays s input)).
  { apply list_filter_iff. intros datum. unfold wide.
    by rewrite radiansToDegrees_abs. }
  rewrite Hfilter in Hrun. split; [exact Hrun|].
  intros datum. split.
  - intros (o & Hin & Ho).
    assert (Hmem : Some (VRef datum) ∈ (λ o : object, o !! "data") <$> out).
    { rewrite <- Ho. by apply list_elem_of_fmap_2. }
    rewrite Hrun in Hmem. apply list_elem_of_fmap in Hmem as (d & [= ->] & Hd).
    apply list_elem_of_filter in Hd as [Hw Hd]. split; [exact Hd|].
    by apply Is_true_true.
  - intros [Hd Hw].
    assert (Hmem : Some (VRef datum)
                   ∈ (λ d, Some (VRef d)) <$> filter (λ d, wide d) (arrays s input)).
    { apply (list_elem_of_fmap_2 (λ d, Some (VRef d))). apply list_elem_of_filter.
      split; [by apply Is_true_true|exact Hd]. }
    rewrite <- Hrun in Hmem. apply list_elem_of_fmap in Hmem as (o & Ho & Hin).
    by exists o.
Qed.

(** C6. The output lists its elements in the order in which the surviving
    items stand in the input: the survivors are a subsequence of the input,
    and the element at each position is the link of the survivor at that
    position. *)
Theorem useArcLinks_order input skipAngle offset diagonalLength straightLength
    computeExtraProps s out s' :
  pipeline input skipAngle offset diagonalLength straightLength computeExtraProps s
  = Normal out s' ->
  sublist (survivors s input skipAngle) (arrays s input)
  ∧ (λ o : object, o !! "data") <$> out
    = (λ datum, Some (VRef datum)) <$> survivors s input skipAngle
  ∧ Forall2
      (λ datum o,
         let link := link_of s offset diagonalLength straightLength datum in
         o !! "data" = Some (VRef datum)
         ∧ o !! "side" = Some (VString (Side_string (side link)))
         ∧ o !! "points" = Some (VPoints (points link)))
      (survivors s input skipAngle) out.
Proof.
  intros Hrun. split; [apply sublist_filter|].
  split; [by eapply useArcLinks_data|].
  apply useArcLinks_Normal in Hrun. eapply Forall2_impl; [exact Hrun|].
  intros datum o (extra & s1 & s2 & _ & ->). simpl.
  pose proof (spread_link_own extra
                (link_of s offset diagonalLength straightLength datum)) as Hown.
  simpl in Hown. tauto.
Qed.
(** A decoration pass whose callback returns without effect is a plain map. *)
Lemma array_map_ret {A B} (f : A -> B) (array : list A) s :
  array_map (λ a, ret (f a)) array s = Normal (f <$> array) s.
Proof.
  induction array as [|a array IH]; [done|].
  simpl. unfold bind at 1, ret at 1. unfold bind at 1. by rewrite IH.
Qed.

Lemma ArcLinkWithDatum_object_dom (link : ArcLinkWithDatum) :
  dom (ArcLinkWithDatum_object link) = ({[ "side"; "points"; "data" ]} : gset string).
Proof. unfold ArcLinkWithDatum_object. rewrite !dom_insert_L, dom_singleton_L. set_solver. Qed.


(** C9. The pipeline writes to none of its inputs: the filter and the
    geometry pass leave the store as it is, and so does the whole pipeline
    when [computeExtraProps] does; the input array and every datum are then
    the same after the pass, and the [data] field of each element is the
    reference of the input datum itself. *)
Theorem useArcLinks_no_mutation input skipAngle offset diagonalLength straightLength
    computeExtraProps s :
  (∀ link s0, completion_store (callback_of computeExtraProps link s0) = s0) ->
  let s' := completion_store
              (pipeline input skipAngle offset diagonalLength straightLength
                 computeExtraProps s) in
  s' = s
  ∧ arrays s' input = arrays s input
  ∧ (∀ datum, objects s' datum = objects s datum)
  ∧ completion_store
      (useArcLinks_links getNormalizedAngle positionFromAngle radiansToDegrees
         input (default 0%float skipAngle) (default 0.5%float offset)
         diagonalLength straightLength s) = s
  ∧ (∀ out s'',
       pipeline input skipAngle offset diagonalLength straightLength
         computeExtraProps s = Normal out s'' →
       Forall2 (λ datum o, datum ∈ arrays s input ∧ o !! "data" = Some (VRef datum))
         (survivors s input skipAngle) out).
Proof.
  intros Hc s'.
  assert (Hs : s' = s).
  { unfold s'. rewrite useArcLinks_run. apply array_map_store.
    intros link s0. simpl. unfold bind. specialize (Hc link s0).
    by destruct (callback_of computeExtraProps link s0). }
  split; [exact Hs|]. rewrite Hs. split; [done|]. split; [done|]. split; [done|].
  intros out s'' Hrun%useArcLinks_Normal.
  apply Forall2_same_length_lookup.
  split; [by eapply Forall2_length|].
  intros i datum o Hd Ho.
  destruct (Forall2_lookup_lr _ _ _ _ _ _ Hrun Hd Ho) as (extra & s1 & s2 & _ & ->).
  split; [|apply spread_link_own].
  apply list_elem_of_lookup_2 in Hd. by apply list_elem_of_filter in Hd as [_ Hd].
Qed.

(** C10. The defaults: an omitted [skipAngle] is [0], so that an item
    passes the filter exactly when its span in degrees is a number, and
    every item does when all spans are numbers; an omitted [offset] is
    [0.5]; an omitted [computeExtraProps] returns the empty record, so that
    each element is the link alone, with the three keys [side], [points]
    and [data]. *)
Theorem useArcLinks_defaults input skipAngle offset diagonalLength straightLength
    computeExtraProps s :
  pipeline input None offset diagonalLength straightLength computeExtraProps
  = pipeline input (Some 0%float) offset diagonalLength straightLength computeExtraProps
  ∧ pipeline input skipAngle None diagonalLength straightLength computeExtraProps
    = pipeline input skipAngle (Some 0.5%float) diagonalLength straightLength
        computeExtraProps
  ∧ pipeline input skipAngle offset diagonalLength straightLength None
    = pipeline input skipAngle offset diagonalLength straightLength
        (Some (λ _, ret ∅))
  ∧ survivors s input None
    = filter (λ datum,
                negb (is_nan (radiansToDegrees
                                (endAngle (arc (objects s datum))
                                 - startAngle (arc (objects s datum)))%float)))
             (arrays s input)
  ∧ (Forall (λ datum,
               is_nan (radiansToDegrees
                         (endAngle (arc (objects s datum))
                          - startAngle (arc (objects s datum)))%float) = false)
            (arrays s input) →
     survivors s input None = arrays s input)
  ∧ (let out :=
       (λ datum,
          ArcLinkWithDatum_object
            {| to_ArcLink := computeArcLink getNormalizedAngle positionFromAngle
                               (arc (objects s datum)) 0.5%float
                               diagonalLength straightLength;
               data := datum |}) <$> survivors s input None in
     pipeline input None None diagonalLength straightLength None s = Normal out s
     ∧ Forall (λ o, dom o = ({[ "side"; "points"; "data" ]} : gset string)) out).
Proof.
  split; [reflexivity|]. split; [reflexivity|]. split; [reflexivity|].
  assert (Hnum : ∀ datum,
            js_ge (span_degrees s datum) (default 0%float None)
            ↔ negb (is_nan (radiansToDegrees
                              (endAngle (arc (objects s datum))
                               - startAngle (arc (objects s datum)))%float))).
  { intros datum. simpl. by rewrite js_ge_abs_zero. }
  split; [by apply list_filter_iff|]. split.
  - intros Hall. rewrite (list_filter_iff _ _ _ Hnum).
    induction Hall as [|datum l Hd _ IH]; [done|].
    rewrite filter_cons_True by (by rewrite Hd). by rewrite IH.
  - split.
    + rewrite useArcLinks_run. simpl.
      etrans; [apply (array_map_ret (λ link, spread ∅ (ArcLinkWithDatum_object link)))|].
      rewrite <- list_fmap_compose. f_equal.
    + apply Forall_fmap, Forall_forall. intros datum _. simpl.
      apply ArcLinkWithDatum_object_dom.
Qed.
End Pipeline_properties.

(** * Properties of the label decoration *)

Section Label_properties.
Context {Datum : Type}.
Variable getLabel getLinkColor getTextColor : ref -> Eff (store Datum) string.

Abbreviation arrow :=
  (useArcLinkLabels_callback getLabel getLinkColor getTextColor).

Abbreviation decorate :=
  (useArcLinkLabels_computeExtraProps getLabel getLinkColor getTextColor).

(** What the record returned for a label holds. *)
Lemma useArcLinkLabels_callback_Normal
    (textOffset : number) (link : ArcLinkWithDatum) (s s' : store Datum) (extra : object) :
  arrow textOffset link s = Normal extra s' ->
  ∃ label linkColor textColor,
    extra
    = {[ "x" := VNumber (match side link with
                         | before => x (points_2 link) - textOffset
                         | after => x (points_2 link) + textOffset
                         end)%float;
         "y" := VNumber (y (points_2 link));
         "label" := VString label;
         "linkColor" := VString linkColor;
         "textAnchor" := VString (match side link with
                                  | before => "end"
                                  | after => "start"
                                  end);
         "textColor" := VString textColor ]}.
Proof.
  unfold useArcLinkLabels_callback.
  destruct (side link); simpl; unfold bind;
    destruct (getLabel (data link) s) as [label s1|e s1]; try discriminate;
    destruct (getLinkColor (data link) s1) as [linkColor s2|e s2]; try discriminate;
    destruct (getTextColor (data link) s2) as [textColor s3|e s3]; try discriminate;
    unfold ret; intros [= <- _]; by exists label, linkColor, textColor.
Qed.

(** A pass that finds no callback, or another accessor, builds its own:
    the arrow function for the [textOffset] of the pass. *)
Lemma useArcLinkLabels_computeExtraProps_rebuilt
    (cache : option (ArcLinkWithDatum -> Eff (store Datum) object))
    (accessors_changed : bool) (textOffset : number) :
  cache = None ∨ accessors_changed = true ->
  decorate cache accessors_changed textOffset = arrow textOffset.
Proof.
  unfold useArcLinkLabels_computeExtraProps, useCallback.
  intros [-> | ->]; [done|]. by destruct cache.
Qed.

(** A pass that finds a callback and the same accessors uses the callback
    it finds, whatever its own [textOffset]. *)
Lemma useArcLinkLabels_computeExtraProps_kept
    (cached : ArcLinkWithDatum -> Eff (store Datum) object) (textOffset : number) :
  decorate (Some cached) false textOffset = cached.
Proof. reflexivity. Qed.

(** In every pass the callback is the arrow function for the [textOffset]
    of some pass. *)
Lemma useArcLinkLabels_computeExtraProps_arrow
    (cache : option (ArcLinkWithDatum -> Eff (store Datum) object))
    (accessors_changed : bool) (textOffset : number) :
  useArcLinkLabels_cached getLabel getLinkColor getTextColor cache accessors_changed ->
  ∃ used, decorate cache accessors_changed textOffset = arrow used.
Proof.
  intros Hcache. destruct cache as [cached|]; [|by exists textOffset].
  destruct accessors_changed; [by exists textOffset|].
  destruct (Hcache cached eq_refl eq_refl) as [used ->]. by exists used.
Qed.

(** The caches of successive passes with the same accessors are of the
    kind [useArcLinkLabels_cached] describes. *)
Lemma useArcLinkLabels_next_cache_cached
    (cache : option (ArcLinkWithDatum -> Eff (store Datum) object))
    (accessors_changed : bool) (textOffset : option number) :
  useArcLinkLabels_cached getLabel getLinkColor getTextColor cache accessors_changed ->
  useArcLinkLabels_cached getLabel getLinkColor getTextColor
    (useArcLinkLabels_next_cache getLabel getLinkColor getTextColor
       cache accessors_changed textOffset)
    false.
Proof.
  intros Hcache cached [= <-] _.
  by apply useArcLinkLabels_computeExtraProps_arrow.
Qed.

(** X17. The arrow function a pass builds: the label of a link on the
    'before' side is anchored at its end, the [textOffset] of that pass to
    the left of [points[2]]; the label of a link on the 'after' side is
    anchored at its start, that [textOffset] to the right of [points[2]];
    in both cases its [y] is that of [points[2]]. The record is returned
    whenever the three accessors return. *)
Theorem useArcLinkLabels_callback_anchor
    (textOffset : number) (link : ArcLinkWithDatum) (s : store Datum) :
  (∀ extra s',
     useArcLinkLabels_callback getLabel getLinkColor getTextColor textOffset link s
     = Normal extra s' →
     extra !! "y" = Some (VNumber (y (points_2 link)))
     ∧ match side link with
       | before =>
           extra !! "textAnchor" = Some (VString "end")
           ∧ extra !! "x" = Some (VNumber (x (points_2 link) - textOffset)%float)
       | after =>
           extra !! "textAnchor" = Some (VString "start")
           ∧ extra !! "x" = Some (VNumber (x (points_2 link) + textOffset)%float)
       end)
  ∧ (∀ label linkColor textColor s1 s2 s3,
       getLabel (data link) s = Normal label s1 →
       getLinkColor (data link) s1 = Normal linkColor s2 →
       getTextColor (data link) s2 = Normal textColor s3 →
       ∃ extra, arrow textOffset link s = Normal extra s3
                ∧ extra !! "label" = Some (VString label)
                ∧ extra !! "linkColor" = Some (VString linkColor)
                ∧ extra !! "textColor" = Some (VString textColor)).
Proof.
  split.
  - intros extra s' (label & linkColor & textColor & ->)%useArcLinkLabels_callback_Normal.
    destruct (side link); done.
  - intros label linkColor textColor s1 s2 s3 Hl Hlc Htc.
    unfold useArcLinkLabels_callback.
    destruct (side link); simpl; unfold bind; rewrite Hl, Hlc, Htc;
      by eexists.
Qed.
End Label_properties.

(** * The labels [useArcLinkLabels] returns *)

Section Labels_output.
Variable getNormalizedAngle : number -> number.
Variable positionFromAngle : number -> number -> Point.
Variable radiansToDegrees : number -> number.
Context {Datum : Type} `{DatumWithArc Datum}.
Variable getLabel getLinkColor getTextColor : ref -> Eff (store Datum) string.

(** Each label carries the link of its datum, and is anchored according to
    the side of that link, at the distance [used] the callback of the pass
    was built for. *)
Lemma useArcLinkLabels_Normal
    (cache : option (ArcLinkWithDatum -> Eff (store Datum) object))
    (accessors_changed : bool)
    (input : ref) (skipAngle offset : option number)
    (diagonalLength straightLength : number) (textOffset : option number)
    (used : number) (s s' : store Datum) (out : list object) :
  useArcLinkLabels_computeExtraProps getLabel getLinkColor getTextColor
    cache accessors_changed (default 0%float textOffset)
  = useArcLinkLabels_callback getLabel getLinkColor getTextColor used ->
  useArcLinkLabels getNormalizedAngle positionFromAngle radiansToDegrees
    getLabel getLinkColor getTextColor cache accessors_changed
    input skipAngle offset diagonalLength straightLength textOffset s = Normal out s' ->
  Forall
    (λ o : object,
       ∃ (sd : Side) (p : Point * Point * Point),
         o !! "side" = Some (VString (Side_string sd))
         ∧ o !! "points" = Some (VPoints p)
         ∧ o !! "y" = Some (VNumber (y p.2))
         ∧ match sd with
           | before =>
               o !! "textAnchor" = Some (VString "end")
               ∧ o !! "x" = Some (VNumber (x p.2 - used)%float)
           | after =>
               o !! "textAnchor" = Some (VString "start")
               ∧ o !! "x" = Some (VNumber (x p.2 + used)%float)
           end)
    out.
Proof.
  unfold useArcLinkLabels. intros -> Hrun%useArcLinks_Normal.
  eapply Forall2_Forall_r; [exact Hrun|]. apply Forall_forall.
  intros datum _ o (extra & s1 & s2 & Hcall & ->). simpl in Hcall.
  apply useArcLinkLabels_callback_Normal in Hcall
    as (label & linkColor & textColor & ->).
  eexists _, _. split; [reflexivity|]. split; [reflexivity|].
  simpl. destruct (side _); done.
Qed.
End Labels_output.

(** * The properties on the sample data *)

(** The remainder keeps the sign of the dividend and is exact. *)
Example js_rem_samples :
  js_rem 5.5 2 = 1.5%float
  ∧ js_rem (-5.5) 2 = (-1.5)%float
  ∧ js_rem 5.5 (-2) = 1.5%float
  ∧ js_rem (-6) 2 = neg_zero
  ∧ js_rem 7 infinity = 7%float
  ∧ js_rem infinity 2 = nan
  ∧ js_rem 1 0 = nan.
Proof. vm_compute. repeat split. Qed.

(** Negative angles wrap forward, and a quarter turn backwards is three
    quarter turns forwards. *)
Example getNormalizedAngle_model_samples :
  getNormalizedAngle_model (- (Math_PI / 2)) = (Math_PI * 1.5)%float
  ∧ getNormalizedAngle_model (Math_PI * 2) = 0%float
  ∧ getNormalizedAngle_model (Math_PI * 3) = Math_PI
  ∧ getNormalizedAngle_model nan = nan.
Proof. vm_compute. repeat split. Qed.

(** The spans of the three slices come out as 5, 14.999999999999998 and
    30.000000000000004 degrees. *)
Example pie_spans :
  (λ datum, Math_abs (radiansToDegrees_model
                        (endAngle (arc (objects Sample.pie datum))
                         - startAngle (arc (objects Sample.pie datum)))%float))
    <$> [1; 2; 3]%positive
  = [5; 0x1.dffffffffffffp+3; 0x1.e000000000001p+4]%float.
Proof. vm_compute. reflexivity. Qed.

(** The quarter arc of the end-to-end scenario: its bisector is normalized
    to [-PI / 4 + 2 * PI], beyond [1.5 * PI], and the link is on the 'after'
    side, 20 to the right of [points[1]]. *)
Example quarter_after :
  centerAngle_of getNormalizedAngle_model Sample.quarter
  = (- (Math_PI / 4) + Math_PI * 2)%float
  ∧ side Sample.quarter_link = after
  ∧ x (points_2 Sample.quarter_link) = (x (points_1 Sample.quarter_link) + 20)%float.
Proof. vm_compute. auto. Qed.

Lemma useArcLinks_link_fields_win_witness :
  ∃ out s',
    Sample.run (Some 10%float) (Some Sample.colliding) = Normal out s'
    ∧ Forall2 (λ datum o, o !! "data" = Some (VRef datum)) [2; 3]%positive out.
Proof.
  destruct (Sample.run (Some 10%float) (Some Sample.colliding)) as [out s'|e s'] eqn:Hrun;
    [|vm_compute in Hrun; discriminate].
  exists out, s'. split; [reflexivity|].
  pose proof (useArcLinks_link_fields_win getNormalizedAngle_model Sample.positionFromAngle
                radiansToDegrees_model 10%positive (Some 10%float) None 10%float 20%float
                (Some Sample.colliding) Sample.pie out s' Hrun) as Hw.
  match type of Hw with
  | Forall2 _ ?kept _ =>
      assert (Hkept : kept = [2; 3]%positive) by (vm_compute; reflexivity);
      rewrite Hkept in Hw
  end.
  eapply Forall2_impl; [exact Hw|].
  intros datum o (extra & s1 & s2 & _ & _ & _ & _ & _ & Hdata). exact Hdata.
Defined.

Lemma useArcLinks_skipAngle_witness :
  ∃ out s',
    Sample.run (Some 10%float) (Some Sample.colliding) = Normal out s'
    ∧ (λ o : object, o !! "data") <$> out = [Some (VRef 2); Some (VRef 3)]%positive.
Proof.
  destruct (Sample.run (Some 10%float) (Some Sample.colliding)) as [out s'|e s'] eqn:Hrun;
    [|vm_compute in Hrun; discriminate].
  exists out, s'. split; [reflexivity|].
  destruct (useArcLinks_skipAngle getNormalizedAngle_model Sample.positionFromAngle
              radiansToDegrees_model radiansToDegrees_model_abs
              10%positive 10%float None 10%float 20%float
              (Some Sample.colliding) Sample.pie out s' Hrun) as [Hw _].
  rewrite Hw. vm_compute. reflexivity.
Defined.

Lemma useArcLinks_order_witness :
  ∃ out s',
    Sample.run (Some 10%float) None = Normal out s'
    ∧ sublist [2; 3]%positive [1; 2; 3]%positive
    ∧ (λ o : object, o !! "data") <$> out = [Some (VRef 2); Some (VRef 3)]%positive.
Proof.
  destruct (Sample.run (Some 10%float) None) as [out s'|e s'] eqn:Hrun;
    [|vm_compute in Hrun; discriminate].
  exists out, s'. split; [reflexivity|].
  destruct (useArcLinks_order getNormalizedAngle_model Sample.positionFromAngle
              radiansToDegrees_model 10%positive (Some 10%float) None 10%float 20%float
              None Sample.pie out s' Hrun) as (Hsub & Hdata & _).
  match type of Hsub with
  | sublist ?kept _ =>
      assert (Hkept : kept = [2; 3]%positive) by (vm_compute; reflexivity);
      rewrite Hkept in Hsub, Hdata
  end.
  split; [exact Hsub|exact Hdata].
Defined.

Lemma useArcLinks_no_mutation_witness :
  completion_store (Sample.run (Some 10%float) (Some Sample.colliding)) = Sample.pie
  ∧ (∀ datum,
       objects (completion_store (Sample.run (Some 10%float) (Some Sample.colliding))) datum
       = objects Sample.pie datum).
Proof.
  pose proof (useArcLinks_no_mutation getNormalizedAngle_model Sample.positionFromAngle
                radiansToDegrees_model 10%positive (Some 10%float) None 10%float 20%float
                (Some Sample.colliding) Sample.pie (λ _ _, eq_refl))
    as (Hs & _ & Hobjects & _).
  split; [exact Hs|exact Hobjects].
Defined.

(** A callback that writes to its datum does change the store: the frame
    property of the pipeline needs the callback to have it. *)
Example repaint_mutates :
  Sample.color
    (objects (completion_store (Sample.run None (Some Sample.repaint))) 2%positive)
  = "black"
  ∧ Sample.color (objects Sample.pie 2%positive) = "#e8c1a0".
Proof. vm_compute. auto. Qed.

(** A throw of the callback is the throw of the pipeline. *)
Example failing_throws :
  Sample.run None (Some Sample.failing) = Throw "accessor failed" Sample.pie.
Proof. vm_compute. reflexivity. Qed.

Lemma computeArcLink_side_witness :
  is_finite (0.5 - (- 0.5))%float = true
  ∧ centerAngle_of getNormalizedAngle_model Sample.symmetric = (Math_PI * 1.5)%float
  ∧ side Sample.symmetric_link = before
  ∧ x (points_2 Sample.symmetric_link) = (x (points_1 Sample.symmetric_link) - 20)%float.
Proof.
  split; [reflexivity|].
  destruct (computeArcLink_side getNormalizedAngle_model Sample.positionFromAngle
              Sample.symmetric 0.5%float 10%float 20%float)
    as (_ & _ & _ & Hsymmetric).
  destruct (Hsymmetric 0.5%float) as (Hcenter & Hside & Hx).
  split; [exact (Hcenter eq_refl)|]. split; [exact Hside|exact Hx].
Defined.

Lemma useArcLinkLabels_callback_anchor_witness :
  ∃ extra,
    useArcLinkLabels_callback Sample.getLabel Sample.getColor Sample.getColor
      6%float Sample.symmetric_link Sample.pie = Normal extra Sample.pie
    ∧ extra !! "label" = Some (VString "a")
    ∧ extra !! "textAnchor" = Some (VString "end")
    ∧ extra !! "x" = Some (VNumber (x (points_2 Sample.symmetric_link) - 6)%float)
    ∧ extra !! "y" = Some (VNumber (y (points_2 Sample.symmetric_link))).
Proof.
  destruct (useArcLinkLabels_callback_anchor Sample.getLabel Sample.getColor Sample.getColor
              6%float Sample.symmetric_link Sample.pie) as [Hprops Hreturns].
  destruct (Hreturns "a" "#e8c1a0" "#e8c1a0" Sample.pie Sample.pie Sample.pie
              eq_refl eq_refl eq_refl) as (extra & Hrun & Hlabel & _).
  exists extra. split; [exact Hrun|]. split; [exact Hlabel|].
  destruct (Hprops extra Sample.pie Hrun) as (Hy & Hanchor & Hx).
  split; [exact Hanchor|]. split; [exact Hx|exact Hy].
Defined.

(** On the 'after' side the label is anchored at its start, to the right. *)
Example quarter_label :
  ∃ extra,
    useArcLinkLabels_callback Sample.getLabel Sample.getColor Sample.getColor
      6%float Sample.quarter_link Sample.pie = Normal extra Sample.pie
    ∧ extra !! "textAnchor" = Some (VString "start")
    ∧ extra !! "x" = Some (VNumber (x (points_2 Sample.quarter_link) + 6)%float).
Proof. eexists. split; [reflexivity|]. vm_compute. auto. Qed.

(** C4. The claim fails on two passes over the pie: a first pass with
    [textOffset] omitted, then a pass with [textOffset = 6], the same data
    and the same accessors. The second pass finds the callback of the first
    and, [textOffset] not being a dependency, uses it: its two labels, on
    the 'after' side and anchored at their start, are at [points[2].x + 0],
    which is not [points[2].x + 6]. A pass that builds its callback does
    put them at [points[2].x + 6]. *)
Theorem useArcLinkLabels_textOffset_stale :
  (∃ out,
     More_samples.labels More_samples.first_pass_cache false
       10%positive (Some 10%float) (Some 6%float)
     = Normal out More_samples.pies
     ∧ length out = 2
     ∧ Forall
         (λ o : object,
            ∃ p : Point * Point * Point,
              o !! "side" = Some (VString "after")
              ∧ o !! "points" = Some (VPoints p)
              ∧ o !! "textAnchor" = Some (VString "start")
              ∧ o !! "x" = Some (VNumber (x p.2 + 0)%float)
              ∧ PrimFloat.eqb (x p.2 + 0) (x p.2 + 6) = false)
         out)
  ∧ (∃ out,
       More_samples.labels None false 10%positive (Some 10%float) (Some 6%float)
       = Normal out More_samples.pies
       ∧ length out = 2
       ∧ Forall
           (λ o : object,
              ∃ p : Point * Point * Point,
                o !! "side" = Some (VString "after")
                ∧ o !! "points" = Some (VPoints p)
                ∧ o !! "textAnchor" = Some (VString "start")
                ∧ o !! "x" = Some (VNumber (x p.2 + 6)%float))
           out).
Proof.
  split.
  - eexists. split; [reflexivity|]. split; [reflexivity|].
    repeat constructor; eexists; vm_compute; repeat split.
  - eexists. split; [reflexivity|]. split; [reflexivity|].
    repeat constructor; eexists; vm_compute; repeat split.
Qed.



Lemma useArcLinks_defaults_witness :
  ∃ out,
    Sample.run None None = Normal out Sample.pie
    ∧ length out = 3
    ∧ Forall (λ o, dom o = ({[ "side"; "points"; "data" ]} : gset string)) out.
Proof.
  destruct (useArcLinks_defaults getNormalizedAngle_model Sample.positionFromAngle
              radiansToDegrees_model 10%positive None None 10%float 20%float None
              Sample.pie)
    as (_ & _ & _ & _ & Hall & Hrun & Hdom).
  eexists. split; [exact Hrun|]. split; [|exact Hdom].
  rewrite length_fmap, Hall; [reflexivity|].
  repeat constructor.
Defined.

(** * More facts about numbers *)

Section More_number_facts.
Local Open Scope Z_scope.

(** [NaN] is the only number that differs from itself. *)
Lemma is_nan_nan (a : number) : is_nan a = true -> a = nan.
Proof.
  unfold is_nan. rewrite FloatAxioms.eqb_spec. intros Hn.
  change nan with (SF2Prim S754_nan). apply SF_float.
  destruct (Prim2SF a) as [[]|[]| |[] m e]; try reflexivity;
    exfalso; revert Hn; unfold SFeqb, SFcompare;
    rewrite ?Z.compare_refl, ?Pos.compare_cont_refl; discriminate.
Qed.

(** No number is [>=] or [<=] [NaN]. *)
Lemma js_ge_nan_r (a k : number) : is_nan k = true -> js_ge a k = false.
Proof.
  intros ->%is_nan_nan. unfold js_ge. rewrite FloatAxioms.leb_spec.
  reflexivity.
Qed.

Lemma js_ge_nan_l (a k : number) : is_nan a = true -> js_ge a k = false.
Proof.
  intros ->%is_nan_nan. unfold js_ge. rewrite FloatAxioms.leb_spec.
  change (Prim2SF nan) with S754_nan. by destruct (Prim2SF k).
Qed.

Lemma Math_abs_nan (a : number) : is_nan a = true -> is_nan (Math_abs a) = true.
Proof. by intros ->%is_nan_nan. Qed.

(** [a - 0] is [a], for every number. *)
Lemma sub_zero_r (a : number) : (a - 0)%float = a.
Proof.
  apply Prim2SF_inj. rewrite sub_spec. change (Prim2SF 0) with (S754_zero false).
  by destruct (Prim2SF a) as [[]|[]| |[] m e].
Qed.

(** [a + 0] is [a], except that [-0 + 0] is [+0]. *)
Lemma add_zero_r (a : number) :
  (a + 0)%float = a \/ (a = neg_zero /\ (a + 0)%float = 0%float).
Proof.
  destruct (Prim2SF a) as [[]|[]| |[] m e] eqn:Ha.
  2-7: left; apply Prim2SF_inj; rewrite add_spec, Ha; reflexivity.
  right. apply SF_float in Ha. subst a. by split.
Qed.

(** [a + 0] is never [-0]: adding [0] twice is adding it once. *)
Lemma add_zero_zero (a : number) : (a + 0 + 0)%float = (a + 0)%float.
Proof.
  destruct (add_zero_r (a + 0)) as [->|[Hz _]]; [done|].
  exfalso. destruct (add_zero_r a) as [Ha|[-> Ha]].
  - rewrite Ha in Hz. subst a. vm_compute in Ha. discriminate.
  - rewrite Ha in Hz. vm_compute in Hz. discriminate.
Qed.
(** [<=] on numbers is transitive. *)
Lemma SFleb_trans (a b c : spec_float) :
  SFleb a b = true -> SFleb b c = true -> SFleb a c = true.
Proof.
  unfold SFleb, SFcompare.
  destruct a as [sa|sa| |sa ma ea], b as [sb|sb| |sb mb eb], c as [sc|sc| |sc mc ec];
    try destruct sa; try destruct sb; try destruct sc; try done.
  all: change (Pos.compare_cont Eq) with Pos.compare.
  all: destruct (Z.compare_spec ea eb), (Z.compare_spec eb ec), (Z.compare_spec ea ec);
    try done; try lia.
  all: destruct (Pos.compare_spec ma mb), (Pos.compare_spec mb mc),
         (Pos.compare_spec ma mc); simpl; try done; try lia.
Qed.

Lemma js_ge_trans (a b c : number) :
  js_ge a b = true -> js_ge b c = true -> js_ge a c = true.
Proof.
  unfold js_ge. rewrite !FloatAxioms.leb_spec. intros Hab Hbc.
  by apply (SFleb_trans _ (Prim2SF b)).
Qed.


(** [NaN] goes through the arithmetic of the bisector. *)
Lemma add_nan_l (a : number) : (nan + a)%float = nan.
Proof. apply Prim2SF_inj. by rewrite add_spec. Qed.

Lemma add_nan_r (a : number) : (a + nan)%float = nan.
Proof. apply Prim2SF_inj. rewrite add_spec. by destruct (Prim2SF a). Qed.

Lemma sub_nan_l (a : number) : (nan - a)%float = nan.
Proof. apply Prim2SF_inj. by rewrite sub_spec. Qed.

Lemma sub_nan_r (a : number) : (a - nan)%float = nan.
Proof. apply Prim2SF_inj. rewrite sub_spec. by destruct (Prim2SF a). Qed.

Lemma div_nan_l (a : number) : (nan / a)%float = nan.
Proof. apply Prim2SF_inj. by rewrite div_spec. Qed.
End More_number_facts.

(** * More facts about effects *)

Section More_effect_facts.
Context {S A B : Type}.
Implicit Types (callback : A -> Eff S B) (array : list A) (s : S).

(** [array.map] completes normally when the calls on its elements do. *)
Lemma array_map_total_on callback array s :
  (forall a, a ∈ array -> forall s0, exists b s1, callback a s0 = Normal b s1) ->
  exists bs s', array_map callback array s = Normal bs s'.
Proof.
  revert s. induction array as [|a array IH]; intros s Hc; simpl.
  - by eexists _, _.
  - unfold bind at 1. destruct (Hc a ltac:(left) s) as (b & s1 & ->).
    unfold bind at 1. destruct (IH s1) as (bs & s2 & ->); [|by eexists _, _].
    intros a' Ha'. apply Hc. by right.
Qed.

(** [array.map] over two arrays in a row, when the calls leave the store
    as it is: the results are those of the two arrays, one after the other. *)
Lemma array_map_app callback array1 array2 s bs1 bs2 s1 s2 :
  (forall a s0, completion_store (callback a s0) = s0) ->
  array_map callback array1 s = Normal bs1 s1 ->
  array_map callback array2 s = Normal bs2 s2 ->
  array_map callback (array1 ++ array2) s = Normal (bs1 ++ bs2) s.
Proof.
  intros Hc H1 H2.
  pose proof (array_map_store callback array2 s Hc) as Hs2.
  rewrite H2 in Hs2. simpl in Hs2. subst s2.
  pose proof (array_map_store callback array1 s Hc) as Hs1.
  rewrite H1 in Hs1. simpl in Hs1. subst s1.
  revert bs1 H1. induction array1 as [|a array1 IH]; intros bs1; simpl.
  - unfold ret. by intros [= <-].
  - unfold bind. pose proof (Hc a s) as Ha.
    destruct (callback a s) as [b s'|e s']; [|done]. simpl in Ha. subst s'.
    fold (bind (array_map callback array1) (fun bs => ret (S := S) (b :: bs)) s).
    unfold bind.
    pose proof (array_map_store callback array1 s Hc) as Hs1.
    destruct (array_map callback array1 s) as [bs s'|e s'] eqn:Hl; [|done].
    simpl in Hs1. subst s'.
    unfold ret. intros [= <-]. by rewrite (IH bs eq_refl).
Qed.
End More_effect_facts.

(** * More properties of the pipeline *)

Section More_pipeline_properties.
Variable getNormalizedAngle : number -> number.
Variable positionFromAngle : number -> number -> Point.
Variable radiansToDegrees : number -> number.
Context {Datum : Type} `{DatumWithArc Datum}.

Implicit Types (s : store Datum) (input datum : ref) (out : list object).
Implicit Types (skipAngle offset : option number) (diagonalLength straightLength : number).
Implicit Types (computeExtraProps : option (ArcLinkWithDatum -> Eff (store Datum) object)).

Abbreviation pipeline :=
  (useArcLinks getNormalizedAngle positionFromAngle radiansToDegrees).

Abbreviation span_degrees s datum :=
  (Math_abs (radiansToDegrees
     (PrimFloat.sub (endAngle (arc (objects s datum)))
                    (startAngle (arc (objects s datum)))))).

Abbreviation survivors s input skipAngle :=
  (filter (λ datum, js_ge (span_degrees s datum) (default 0%float skipAngle))
          (arrays s input)).

Abbreviation link_of s offset diagonalLength straightLength :=
  (λ datum,
     {| to_ArcLink := computeArcLink getNormalizedAngle positionFromAngle
                        (arc (objects s datum)) (default 0.5%float offset)
                        diagonalLength straightLength;
        data := datum |}).

Abbreviation callback_of computeExtraProps :=
  (default (λ _ : ArcLinkWithDatum, ret (S := store Datum) (∅ : object)) computeExtraProps).

Abbreviation link_keys := ({[ "side"; "points"; "data" ]} : gset string).

Lemma ArcLinkWithDatum_object_None (link : ArcLinkWithDatum) (k : string) :
  k ∉ link_keys -> ArcLinkWithDatum_object link !! k = None.
Proof. rewrite <- (ArcLinkWithDatum_object_dom link). apply not_elem_of_dom. Qed.

(** X1. The properties that [computeExtraProps] returns are appended to the
    link: the merged element has the keys of the returned record and the
    three keys of the link, and at every key that is not one of the link's
    it holds the value [computeExtraProps] returned. *)
Theorem useArcLinks_extra_props_kept input skipAngle offset diagonalLength straightLength
    computeExtraProps s out s' :
  useArcLinks getNormalizedAngle positionFromAngle radiansToDegrees
    input skipAngle offset diagonalLength straightLength computeExtraProps s
  = Normal out s' ->
  Forall2
    (λ datum o,
       ∃ extra s1 s2,
         callback_of computeExtraProps
           (link_of s offset diagonalLength straightLength datum) s1
         = Normal extra s2
         ∧ dom o = dom extra ∪ link_keys
         ∧ (∀ k, k ∉ link_keys → o !! k = extra !! k))
    (survivors s input skipAngle) out.
Proof.
  intros Hrun%useArcLinks_Normal. eapply Forall2_impl; [exact Hrun|].
  intros datum o (extra & s1 & s2 & Hcall & ->). simpl.
  exists extra, s1, s2. split; [exact Hcall|]. split.
  - unfold spread. rewrite dom_union_L, ArcLinkWithDatum_object_dom.
    apply (comm_L (∪)).
  - intros k Hk. unfold spread. apply lookup_union_r.
    by apply ArcLinkWithDatum_object_None.
Qed.

(** X2. [computeExtraProps] is called on the links of the survivors only:
    the pipeline completes normally as soon as the calls on those links do,
    whatever the callback does on the items the filter dropped. *)
Theorem useArcLinks_calls_survivors_only input skipAngle offset diagonalLength
    straightLength (callback : ArcLinkWithDatum -> Eff (store Datum) object) s :
  (∀ datum, datum ∈ survivors s input skipAngle →
     ∀ s0, ∃ extra s1,
       callback (link_of s offset diagonalLength straightLength datum) s0
       = Normal extra s1) ->
  ∃ out s', pipeline input skipAngle offset diagonalLength straightLength
              (Some callback) s = Normal out s'.
Proof.
  intros Hc. rewrite useArcLinks_run. apply array_map_total_on.
  intros link (datum & -> & Hin)%list_elem_of_fmap s0. simpl. unfold bind.
  destruct (Hc datum Hin s0) as (extra & s1 & ->). by eexists _, _.
Qed.

(** X3. When the input array is empty, or when [skipAngle] is [NaN], the
    pipeline returns the empty array without calling [computeExtraProps]
    and without touching the store. *)
Theorem useArcLinks_nothing_to_link input skipAngle offset diagonalLength straightLength
    computeExtraProps s :
  arrays s input = [] ∨ (∃ k, skipAngle = Some k ∧ is_nan k = true) ->
  useArcLinks getNormalizedAngle positionFromAngle radiansToDegrees
    input skipAngle offset diagonalLength straightLength computeExtraProps s
  = Normal [] s.
Proof.
  intros Hnone. rewrite useArcLinks_run.
  assert (Hkept : survivors s input skipAngle = []).
  { destruct Hnone as [-> | (k & -> & Hk)]; [done|].
    induction (arrays s input) as [|datum l IH]; [done|].
    rewrite filter_cons_False; [exact IH|].
    intros Hge%Is_true_true. simpl in Hge.
    rewrite js_ge_nan_r in Hge; [done|exact Hk]. }
  by rewrite Hkept.
Qed.

(** X4. The output has one element per survivor, hence at most one per
    input item. *)
Theorem useArcLinks_length input skipAngle offset diagonalLength straightLength
    computeExtraProps s out s' :
  useArcLinks getNormalizedAngle positionFromAngle radiansToDegrees
    input skipAngle offset diagonalLength straightLength computeExtraProps s
  = Normal out s' ->
  length out = length (survivors s input skipAngle)
  ∧ length out ≤ length (arrays s input).
Proof.
  intros Hrun%useArcLinks_Normal. apply Forall2_length in Hrun.
  split; [done|]. rewrite <- Hrun. apply length_filter.
Qed.

(** X5. Items are linked independently of one another: when the input
    array is the concatenation of two arrays and [computeExtraProps] leaves
    the store as it is, the output is the concatenation of the outputs for
    the two arrays. *)
Theorem useArcLinks_append input input1 input2 skipAngle offset diagonalLength
    straightLength computeExtraProps s out1 out2 s1 s2 :
  arrays s input = arrays s input1 ++ arrays s input2 ->
  (∀ link s0, completion_store (callback_of computeExtraProps link s0) = s0) ->
  pipeline input1 skipAngle offset diagonalLength straightLength computeExtraProps s
  = Normal out1 s1 ->
  pipeline input2 skipAngle offset diagonalLength straightLength computeExtraProps s
  = Normal out2 s2 ->
  pipeline input skipAngle offset diagonalLength straightLength computeExtraProps s
  = Normal (out1 ++ out2) s.
Proof.
  intros Harr Hc. rewrite !useArcLinks_run, Harr, filter_app, fmap_app.
  apply array_map_app.
  intros link s0. simpl. unfold bind. specialize (Hc link s0).
  by destruct (callback_of computeExtraProps link s0).
Qed.

(** X6. Raising [skipAngle] only removes elements: the datums linked under
    the larger threshold are, in order, among those linked under the
    smaller one. *)
Theorem useArcLinks_skipAngle_monotone input (k1 k2 : number) offset offset'
    diagonalLength straightLength computeExtraProps computeExtraProps' s
    out1 out2 s1 s2 :
  js_ge k2 k1 = true ->
  pipeline input (Some k1) offset diagonalLength straightLength computeExtraProps s
  = Normal out1 s1 ->
  pipeline input (Some k2) offset' diagonalLength straightLength computeExtraProps' s
  = Normal out2 s2 ->
  sublist ((λ o : object, o !! "data") <$> out2) ((λ o : object, o !! "data") <$> out1).
Proof.
  intros Hk H1%useArcLinks_data H2%useArcLinks_data. rewrite H1, H2.
  apply fmap_sublist.
  rewrite <- (list_filter_filter_l
                (λ datum, js_ge (span_degrees s datum) (default 0%float (Some k2)))
                (λ datum, js_ge (span_degrees s datum) (default 0%float (Some k1)))).
  - apply sublist_filter.
  - intros datum Hd. simpl in *. apply Is_true_true. apply Is_true_true in Hd.
    by apply (js_ge_trans _ k2).
Qed.

(** X7. An item whose span in degrees is [NaN] is never linked, whatever
    [skipAngle] is, the default included. *)
Theorem useArcLinks_NaN_span_dropped input skipAngle offset diagonalLength straightLength
    computeExtraProps s out s' datum :
  is_nan (radiansToDegrees
            (endAngle (arc (objects s datum)) - startAngle (arc (objects s datum)))%float)
  = true ->
  useArcLinks getNormalizedAngle positionFromAngle radiansToDegrees
    input skipAngle offset diagonalLength straightLength computeExtraProps s
  = Normal out s' ->
  Some (VRef datum) ∉ (λ o : object, o !! "data") <$> out.
Proof.
  intros Hnan Hrun%useArcLinks_data. rewrite Hrun.
  intros (d & [= <-] & Hd)%list_elem_of_fmap.
  apply list_elem_of_filter in Hd as [Hd _]. apply Is_true_true in Hd.
  rewrite js_ge_nan_l in Hd; [done|]. by apply Math_abs_nan.
Qed.

End More_pipeline_properties.

(** * More properties of [computeArcLink] *)

Section More_link_properties.
Variable getNormalizedAngle : number -> number.
Variable positionFromAngle : number -> number -> Point.

Abbreviation computeLink := (computeArcLink getNormalizedAngle positionFromAngle).

(** X9. The side of a link depends on the two angles of the arc only: the
    radii and the three lengths have no part in it, and [innerRadius] has
    no part in the link at all. With the same outer radius and offset,
    [points[0]] is the same whatever the two lengths are. *)
Theorem computeArcLink_side_of_angles (a a' : Arc)
    (offset offset' diagonalLength diagonalLength' straightLength straightLength' : number) :
  startAngle a = startAngle a' -> endAngle a = endAngle a' ->
  side (computeLink a offset diagonalLength straightLength)
  = side (computeLink a' offset' diagonalLength' straightLength')
  ∧ (outerRadius a = outerRadius a' →
     computeLink a offset diagonalLength straightLength
     = computeLink a' offset diagonalLength straightLength
     ∧ points_0 (computeLink a offset diagonalLength straightLength)
       = points_0 (computeLink a' offset diagonalLength' straightLength')).
Proof.
  intros Hstart Hend.
  assert (Hc : centerAngle_of getNormalizedAngle a = centerAngle_of getNormalizedAngle a')
    by (unfold centerAngle_of; by rewrite Hstart, Hend).
  unfold computeArcLink, points_0. rewrite Hc. split.
  - by destruct (_ || _).
  - intros ->. by destruct (_ || _).
Qed.

(** X10. Degenerate lengths. With [straightLength = 0] the last point is
    the middle one, except that an abscissa [-0] becomes [+0] on the
    'after' side; with [diagonalLength = 0] the middle point is the first
    one, provided [outerRadius + offset] is not [-0]. *)
Theorem computeArcLink_degenerate (a : Arc) (offset diagonalLength straightLength : number) :
  (let l := computeLink a offset diagonalLength 0%float in
   points_2 l = points_1 l
   ∨ (side l = after ∧ x (points_1 l) = neg_zero
      ∧ points_2 l = {| x := 0%float; y := y (points_1 l) |}))
  ∧ (let l := computeLink a offset 0%float straightLength in
     (outerRadius a + offset)%float ≠ neg_zero → points_1 l = points_0 l).
Proof.
  split.
  - unfold computeArcLink, points_1, points_2. destruct (_ || _); simpl.
    + destruct (add_zero_r
                  (x (positionFromAngle (centerAngle_of getNormalizedAngle a)
                        (outerRadius a + offset + diagonalLength)%float)))
        as [-> | [Hz ->]].
      * left. by destruct (positionFromAngle _ _).
      * right. by rewrite Hz.
    + left. rewrite sub_zero_r. by destruct (positionFromAngle _ _).
  - intros l Hr. unfold l, computeArcLink, points_1, points_0.
    destruct (add_zero_r (outerRadius a + offset)%float) as [Hz | [Hz _]]; [|done].
    destruct (_ || _); simpl; by rewrite Hz.
Qed.

(** X11. A [NaN] angle raises nothing: the angle handed to
    [getNormalizedAngle] is then [NaN], and when [getNormalizedAngle]
    returns [NaN] for it the link is on the 'before' side. *)
Theorem computeArcLink_NaN_angle (a : Arc) (offset diagonalLength straightLength : number) :
  is_nan (startAngle a) = true ∨ is_nan (endAngle a) = true ->
  centerAngle_of getNormalizedAngle a = getNormalizedAngle nan
  ∧ (is_nan (getNormalizedAngle nan) = true →
     side (computeLink a offset diagonalLength straightLength) = before).
Proof.
  intros Hnan.
  assert (Hc : centerAngle_of getNormalizedAngle a = getNormalizedAngle nan).
  { unfold centerAngle_of. f_equal.
    destruct Hnan as [->%is_nan_nan | ->%is_nan_nan].
    - by rewrite add_nan_l, sub_nan_l.
    - by rewrite sub_nan_l, div_nan_l, add_nan_r, sub_nan_l. }
  split; [exact Hc|]. intros Hn%is_nan_nan.
  apply computeArcLink_before. by rewrite Hc, Hn.
Qed.
End More_link_properties.

(** * More properties of the labels *)

Section More_label_properties.
Variable getNormalizedAngle : number -> number.
Variable positionFromAngle : number -> number -> Point.
Variable radiansToDegrees : number -> number.
Context {Datum : Type} `{DatumWithArc Datum}.
Variable getLabel getLinkColor getTextColor : ref -> Eff (store Datum) string.

Abbreviation arrow :=
  (useArcLinkLabels_callback getLabel getLinkColor getTextColor).

Abbreviation decorate :=
  (useArcLinkLabels_computeExtraProps getLabel getLinkColor getTextColor).

Abbreviation cached_ok :=
  (useArcLinkLabels_cached getLabel getLinkColor getTextColor).

Abbreviation labels :=
  (useArcLinkLabels getNormalizedAngle positionFromAngle radiansToDegrees
     getLabel getLinkColor getTextColor).

Abbreviation label_keys :=
  ({[ "side"; "points"; "data"; "x"; "y"; "label"; "linkColor"; "textAnchor";
      "textColor" ]} : gset string).

Lemma useArcLinkLabels_callback_Throw
    (textOffset : number) (link : ArcLinkWithDatum) (s s' : store Datum) (e : string) :
  arrow textOffset link s = Throw e s'
  ↔ getLabel (data link) s = Throw e s'
    ∨ (∃ label s1,
         getLabel (data link) s = Normal label s1
         ∧ (getLinkColor (data link) s1 = Throw e s'
            ∨ ∃ linkColor s2,
                getLinkColor (data link) s1 = Normal linkColor s2
                ∧ getTextColor (data link) s2 = Throw e s')).
Proof.
  unfold useArcLinkLabels_callback.
  destruct (side link); simpl; unfold bind;
    (destruct (getLabel (data link) s) as [label s1|e1 s1] eqn:Hl;
       [destruct (getLinkColor (data link) s1) as [linkColor s2|e2 s2] eqn:Hlc;
          [destruct (getTextColor (data link) s2) as [textColor s3|e3 s3] eqn:Htc|]|]);
    unfold ret;
    (split;
       [intros Heq; try discriminate; injection Heq as <- <-; eauto 10
       |intros [Ha | (l' & s1' & Ha & [Hb | (lc' & s2' & Hb & Hc)])];
          simplify_eq; congruence]).
Qed.

(** X12. The accessors are called in the order [label], [linkColor],
    [textColor], each on the datum of the link, and the first throw is the
    throw of the decoration: the later accessors are not called. This holds
    of the callback of every pass, built or found. *)
Theorem useArcLinkLabels_computeExtraProps_Throw
    (cache : option (ArcLinkWithDatum -> Eff (store Datum) object))
    (accessors_changed : bool)
    (textOffset : number) (link : ArcLinkWithDatum) (s s' : store Datum) (e : string) :
  useArcLinkLabels_cached getLabel getLinkColor getTextColor cache accessors_changed ->
  decorate cache accessors_changed textOffset link s = Throw e s'
  ↔ getLabel (data link) s = Throw e s'
    ∨ (∃ label s1,
         getLabel (data link) s = Normal label s1
         ∧ (getLinkColor (data link) s1 = Throw e s'
            ∨ ∃ linkColor s2,
                getLinkColor (data link) s1 = Normal linkColor s2
                ∧ getTextColor (data link) s2 = Throw e s')).
Proof.
  intros Hcache.
  destruct (useArcLinkLabels_computeExtraProps_arrow getLabel getLinkColor getTextColor
              cache accessors_changed textOffset Hcache) as [used ->].
  apply useArcLinkLabels_callback_Throw.
Qed.

(** X13. A label has exactly nine keys: the three of the link and the six
    of the decoration, which are different from those of the link. This
    holds in every pass. *)
Theorem useArcLinkLabels_keys
    (cache : option (ArcLinkWithDatum -> Eff (store Datum) object))
    (accessors_changed : bool)
    (input : ref) (skipAngle offset : option number)
    (diagonalLength straightLength : number) (textOffset : option number)
    (s s' : store Datum) (out : list object) :
  useArcLinkLabels_cached getLabel getLinkColor getTextColor cache accessors_changed ->
  labels cache accessors_changed
    input skipAngle offset diagonalLength straightLength textOffset s
  = Normal out s' ->
  Forall (λ o : object, dom o = label_keys) out.
Proof.
  intros Hcache.
  destruct (useArcLinkLabels_computeExtraProps_arrow getLabel getLinkColor getTextColor
              cache accessors_changed (default 0%float textOffset) Hcache) as [used Hused].
  unfold useArcLinkLabels. rewrite Hused. intros Hrun%useArcLinks_Normal.
  eapply Forall2_Forall_r; [exact Hrun|]. apply Forall_forall.
  intros datum _ o (extra & s1 & s2 & Hcall & ->). simpl in Hcall.
  apply useArcLinkLabels_callback_Normal in Hcall
    as (label & linkColor & textColor & ->).
  unfold spread, ArcLinkWithDatum_object.
  rewrite dom_union_L, !dom_insert_L, !dom_singleton_L. set_solver.
Qed.

(** X14. In a pass that builds its callback (the first pass, or a pass in
    which an accessor changed), with [textOffset] omitted the label sits on
    the last point of its link: same [y], and same [x] except that [-0]
    becomes [+0] on the 'after' side. *)
Theorem useArcLinkLabels_default_textOffset
    (cache : option (ArcLinkWithDatum -> Eff (store Datum) object))
    (accessors_changed : bool)
    (input : ref) (skipAngle offset : option number)
    (diagonalLength straightLength : number) (s s' : store Datum) (out : list object) :
  cache = None ∨ accessors_changed = true ->
  labels cache accessors_changed
    input skipAngle offset diagonalLength straightLength None s = Normal out s' ->
  Forall
    (λ o : object,
       ∃ (p : Point * Point * Point) (v : number),
         o !! "points" = Some (VPoints p)
         ∧ o !! "y" = Some (VNumber (y p.2))
         ∧ o !! "x" = Some (VNumber v)
         ∧ (v = x p.2 ∨ (x p.2 = neg_zero ∧ v = 0%float)))
    out.
Proof.
  intros Hbuilt Hrun.
  eapply useArcLinkLabels_Normal in Hrun;
    [|by apply useArcLinkLabels_computeExtraProps_rebuilt].
  eapply Forall_impl; [exact Hrun|].
  intros o (sd & p & _ & Hp & Hy & Hx). simpl in Hx.
  destruct sd; destruct Hx as [_ Hx].
  - exists p, (x p.2 - 0)%float. rewrite sub_zero_r in *. auto.
  - exists p, (x p.2 + 0)%float. split; [done|]. split; [done|]. split; [done|].
    destruct (add_zero_r (x p.2)) as [-> | [Hz ->]]; auto.
Qed.

(** X15. The callback of a later pass. When the accessors are those of the
    earlier pass, the label is shifted by the [textOffset] of the earlier
    pass, whatever the [textOffset] of the later one: [textOffset] is not
    among the dependencies. When an accessor changed, the label is shifted
    by the new [textOffset]. *)
Theorem useArcLinkLabels_computeExtraProps_again_offset
    (accessors_changed : bool) (textOffset textOffset' : number)
    (link : ArcLinkWithDatum) (s s' : store Datum) (extra : object) :
  useArcLinkLabels_computeExtraProps getLabel getLinkColor getTextColor
    (Some (useArcLinkLabels_callback getLabel getLinkColor getTextColor textOffset))
    accessors_changed textOffset' link s = Normal extra s' ->
  let used := if accessors_changed then textOffset' else textOffset in
  extra !! "x"
  = Some (VNumber (match side link with
                   | before => x (points_2 link) - used
                   | after => x (points_2 link) + used
                   end)%float).
Proof.
  unfold useArcLinkLabels_computeExtraProps, useCallback.
  destruct accessors_changed; simpl;
    intros (label & linkColor & textColor & ->)%useArcLinkLabels_callback_Normal;
    done.
Qed.

(** The labels of a pass that finds the callback of an earlier pass and
    the same accessors are shifted by the [textOffset] of the pass that
    built the callback, whatever the [textOffset] of the pass. *)
Lemma useArcLinkLabels_stale
    (input : ref) (skipAngle offset : option number)
    (diagonalLength straightLength : number) (textOffset0 : number)
    (textOffset : option number) (s s' : store Datum) (out : list object) :
  labels (Some (arrow textOffset0)) false
    input skipAngle offset diagonalLength straightLength textOffset s = Normal out s' ->
  Forall
    (λ o : object,
       ∃ (sd : Side) (p : Point * Point * Point),
         o !! "side" = Some (VString (Side_string sd))
         ∧ o !! "points" = Some (VPoints p)
         ∧ o !! "x" = Some (VNumber (match sd with
                                     | before => x p.2 - textOffset0
                                     | after => x p.2 + textOffset0
                                     end)%float))
    out.
Proof.
  intros Hrun. eapply useArcLinkLabels_Normal in Hrun; [|reflexivity].
  eapply Forall_impl; [exact Hrun|].
  intros o (sd & p & Hside & Hp & _ & Hx). exists sd, p.
  destruct sd; tauto.
Qed.
End More_label_properties.

Section Read_only_labels.
Variable getNormalizedAngle : number -> number.
Variable positionFromAngle : number -> number -> Point.
Variable radiansToDegrees : number -> number.
Context {Datum : Type} `{DatumWithArc Datum}.
(** Accessors that read the datum: a label and two colors. *)
Variable label_of linkColor_of textColor_of : Datum -> string.

Lemma array_map_reads {A B} (callback : A -> Eff (store Datum) B)
    (f : store Datum -> A -> B) (array : list A) (s : store Datum) :
  (∀ a s0, callback a s0 = Normal (f s0 a) s0) ->
  array_map callback array s = Normal (f s <$> array) s.
Proof.
  intros Hc. induction array as [|a array IH]; [done|].
  simpl. unfold bind at 1. rewrite Hc. unfold bind at 1. by rewrite IH.
Qed.

(** X16. With accessors that only read the datum, a pass of
    [useArcLinkLabels] completes normally, leaves the store as it is, and
    returns for each survivor, in order, the label made of its link, of the
    label and colors of its datum, and of the position and anchor its side
    gives. The distance [used] between the label and [points[2]] is the
    [textOffset] of the pass when the pass builds its callback (first pass,
    or an accessor changed), and otherwise the [textOffset] of the pass
    that built the callback it finds. *)
Theorem useArcLinkLabels_read_only
    (cache : option (ArcLinkWithDatum -> Eff (store Datum) object))
    (accessors_changed : bool)
    (input : ref) (skipAngle offset : option number)
    (diagonalLength straightLength : number) (textOffset : option number)
    (used : number) (s : store Datum) :
  match cache with
  | Some cached =>
      if accessors_changed then used = default 0%float textOffset
      else cached
           = useArcLinkLabels_callback
               (λ r, gets (λ s0, label_of (objects s0 r)))
               (λ r, gets (λ s0, linkColor_of (objects s0 r)))
               (λ r, gets (λ s0, textColor_of (objects s0 r)))
               used
  | None => used = default 0%float textOffset
  end ->
  useArcLinkLabels getNormalizedAngle positionFromAngle radiansToDegrees
    (λ r, gets (λ s0, label_of (objects s0 r)))
    (λ r, gets (λ s0, linkColor_of (objects s0 r)))
    (λ r, gets (λ s0, textColor_of (objects s0 r)))
    cache accessors_changed
    input skipAngle offset diagonalLength straightLength textOffset s
  = Normal
      ((λ datum,
          let l := computeArcLink getNormalizedAngle positionFromAngle
                     (arc (objects s datum)) (default 0.5%float offset)
                     diagonalLength straightLength in
          ({[ "side" := VString (Side_string (side l));
              "points" := VPoints (points l);
              "data" := VRef datum;
              "x" := VNumber (match side l with
                              | before => x (points_2 l) - used
                              | after => x (points_2 l) + used
                              end)%float;
              "y" := VNumber (y (points_2 l));
              "label" := VString (label_of (objects s datum));
              "linkColor" := VString (linkColor_of (objects s datum));
              "textAnchor" := VString (match side l with
                                       | before => "end"
                                       | after => "start"
                                       end);
              "textColor" := VString (textColor_of (objects s datum)) ]} : object))
       <$> filter (λ datum,
                     js_ge (Math_abs (radiansToDegrees
                              (endAngle (arc (objects s datum))
                               - startAngle (arc (objects s datum)))%float))
                           (default 0%float skipAngle))
                  (arrays s input))
      s.
Proof.
  intros Hused.
  assert (Hdec : useArcLinkLabels_computeExtraProps
                   (λ r, gets (λ s0, label_of (objects s0 r)))
                   (λ r, gets (λ s0, linkColor_of (objects s0 r)))
                   (λ r, gets (λ s0, textColor_of (objects s0 r)))
                   cache accessors_changed (default 0%float textOffset)
                 = useArcLinkLabels_callback
                     (λ r, gets (λ s0, label_of (objects s0 r)))
                     (λ r, gets (λ s0, linkColor_of (objects s0 r)))
                     (λ r, gets (λ s0, textColor_of (objects s0 r)))
                     used).
  { unfold useArcLinkLabels_computeExtraProps, useCallback.
    destruct cache as [cached|]; [destruct accessors_changed|]; by subst. }
  unfold useArcLinkLabels. rewrite Hdec, useArcLinks_run.
  etrans.
  - apply (array_map_reads _
             (λ s0 (link : ArcLinkWithDatum),
                ({[ "side" := VString (Side_string (side link));
                    "points" := VPoints (points link);
                    "data" := VRef (data link);
                    "x" := VNumber (match side link with
                                    | before => x (points_2 link) - used
                                    | after => x (points_2 link) + used
                                    end)%float;
                    "y" := VNumber (y (points_2 link));
                    "label" := VString (label_of (objects s0 (data link)));
                    "linkColor" := VString (linkColor_of (objects s0 (data link)));
                    "textAnchor" := VString (match side link with
                                             | before => "end"
                                             | after => "start"
                                             end);
                    "textColor" := VString (textColor_of (objects s0 (data link))) ]}
                 : object))).
    intros link s0. simpl.
    unfold useArcLinkLabels_callback, ArcLinkWithDatum_object.
    destruct (side link); reflexivity.
  - by rewrite <- list_fmap_compose.
Qed.
End Read_only_labels.

(** * The further properties on the sample data *)

Lemma useArcLinks_extra_props_kept_witness :
  ∃ out s',
    Sample.run (Some 10%float) (Some Sample.colliding) = Normal out s'
    ∧ Forall (λ o : object, o !! "color" = Some (VString "red")) out.
Proof.
  destruct (Sample.run (Some 10%float) (Some Sample.colliding)) as [out s'|e s'] eqn:Hrun;
    [|vm_compute in Hrun; discriminate].
  exists out, s'. split; [reflexivity|].
  pose proof (useArcLinks_extra_props_kept getNormalizedAngle_model Sample.positionFromAngle
                radiansToDegrees_model 10%positive (Some 10%float) None 10%float 20%float
                (Some Sample.colliding) Sample.pie out s' Hrun) as Hw.
  eapply Forall2_Forall_r; [exact Hw|]. apply Forall_forall.
  intros datum _ o (extra & s1 & s2 & [= <- _] & _ & Hkept).
  rewrite Hkept; [reflexivity|].
  rewrite !elem_of_union, !elem_of_singleton. intros [[?|?]|?]; discriminate.
Defined.

(** Without the filter the callback that throws on the first datum makes
    the pipeline throw. *)
Example picky_throws :
  Sample.run None (Some More_samples.picky) = Throw "no label" Sample.pie.
Proof. vm_compute. reflexivity. Qed.

Lemma useArcLinks_calls_survivors_only_witness :
  ∃ out s', Sample.run (Some 10%float) (Some More_samples.picky) = Normal out s'.
Proof.
  apply (useArcLinks_calls_survivors_only getNormalizedAngle_model Sample.positionFromAngle
           radiansToDegrees_model 10%positive (Some 10%float) None 10%float 20%float
           More_samples.picky Sample.pie).
  intros datum Hd s0.
  match type of Hd with
  | _ ∈ ?kept =>
      assert (Hkept : kept = [2; 3]%positive) by (vm_compute; reflexivity);
      rewrite Hkept in Hd
  end.
  apply elem_of_cons in Hd as [-> | Hd]; [by eexists _, _|].
  apply elem_of_cons in Hd as [-> | Hd]; [by eexists _, _|].
  by apply elem_of_nil in Hd.
Defined.

Lemma useArcLinks_nothing_to_link_witness :
  is_nan nan = true
  ∧ More_samples.run 20%positive (Some nan) (Some Sample.failing)
    = Normal [] More_samples.pies.
Proof.
  split; [reflexivity|].
  apply (useArcLinks_nothing_to_link getNormalizedAngle_model Sample.positionFromAngle
           radiansToDegrees_model 20%positive (Some nan) None 10%float 20%float
           (Some Sample.failing) More_samples.pies).
  right. by exists nan.
Defined.

Lemma useArcLinks_length_witness :
  ∃ out s',
    Sample.run (Some 10%float) None = Normal out s' ∧ length out = 2 ∧ length out ≤ 3.
Proof.
  destruct (Sample.run (Some 10%float) None) as [out s'|e s'] eqn:Hrun;
    [|vm_compute in Hrun; discriminate].
  exists out, s'. split; [reflexivity|].
  exact (useArcLinks_length getNormalizedAngle_model Sample.positionFromAngle
           radiansToDegrees_model 10%positive (Some 10%float) None 10%float 20%float
           None Sample.pie out s' Hrun).
Defined.

Lemma useArcLinks_append_witness :
  ∃ out1 out2 s1 s2,
    More_samples.run 11%positive None None = Normal out1 s1
    ∧ More_samples.run 12%positive None None = Normal out2 s2
    ∧ More_samples.run 10%positive None None = Normal (out1 ++ out2) More_samples.pies.
Proof.
  destruct (More_samples.run 11%positive None None) as [out1 s1|e s1] eqn:Hrun1;
    [|vm_compute in Hrun1; discriminate].
  destruct (More_samples.run 12%positive None None) as [out2 s2|e s2] eqn:Hrun2;
    [|vm_compute in Hrun2; discriminate].
  exists out1, out2, s1, s2. split; [reflexivity|]. split; [reflexivity|].
  apply (useArcLinks_append getNormalizedAngle_model Sample.positionFromAngle
           radiansToDegrees_model 10%positive 11%positive 12%positive None None
           10%float 20%float None More_samples.pies out1 out2 s1 s2);
    [reflexivity| intros link s0; reflexivity | exact Hrun1 | exact Hrun2].
Defined.

Lemma useArcLinks_skipAngle_monotone_witness :
  ∃ out1 out2 s1 s2,
    js_ge 20 10 = true
    ∧ Sample.run (Some 10%float) None = Normal out1 s1
    ∧ Sample.run (Some 20%float) None = Normal out2 s2
    ∧ sublist ((λ o : object, o !! "data") <$> out2) ((λ o : object, o !! "data") <$> out1).
Proof.
  destruct (Sample.run (Some 10%float) None) as [out1 s1|e s1] eqn:Hrun1;
    [|vm_compute in Hrun1; discriminate].
  destruct (Sample.run (Some 20%float) None) as [out2 s2|e s2] eqn:Hrun2;
    [|vm_compute in Hrun2; discriminate].
  exists out1, out2, s1, s2. split; [reflexivity|]. split; [reflexivity|].
  split; [reflexivity|].
  exact (useArcLinks_skipAngle_monotone getNormalizedAngle_model Sample.positionFromAngle
           radiansToDegrees_model 10%positive 10%float 20%float None None 10%float 20%float
           None None Sample.pie out1 out2 s1 s2 eq_refl Hrun1 Hrun2).
Defined.

Lemma useArcLinks_NaN_span_dropped_witness :
  ∃ out s',
    More_samples.run 20%positive None None = Normal out s'
    ∧ length out = 4
    ∧ Some (VRef 5%positive) ∉ (λ o : object, o !! "data") <$> out.
Proof.
  destruct (More_samples.run 20%positive None None) as [out s'|e s'] eqn:Hrun;
    [|vm_compute in Hrun; discriminate].
  exists out, s'. split; [reflexivity|]. split.
  - vm_compute in Hrun. by injection Hrun as <- _.
  - exact (useArcLinks_NaN_span_dropped getNormalizedAngle_model Sample.positionFromAngle
             radiansToDegrees_model 20%positive None None 10%float 20%float None
             More_samples.pies out s' 5%positive eq_refl Hrun).
Defined.


Lemma computeArcLink_side_of_angles_witness :
  side (computeArcLink getNormalizedAngle_model Sample.positionFromAngle
          Sample.quarter 0.5 10 20)
  = side (computeArcLink getNormalizedAngle_model Sample.positionFromAngle
            More_samples.ring 3 0 7)
  ∧ computeArcLink getNormalizedAngle_model Sample.positionFromAngle Sample.quarter 0.5 10 20
    = computeArcLink getNormalizedAngle_model Sample.positionFromAngle
        More_samples.ring 0.5 10 20.
Proof.
  destruct (computeArcLink_side_of_angles getNormalizedAngle_model Sample.positionFromAngle
              Sample.quarter More_samples.ring 0.5 3 10 0 20 7 eq_refl eq_refl)
    as [Hside Hlink].
  split; [exact Hside|]. by destruct (Hlink eq_refl).
Defined.

Lemma computeArcLink_NaN_angle_witness :
  is_nan (endAngle (arc (objects More_samples.pies 5%positive))) = true
  ∧ is_nan (centerAngle_of getNormalizedAngle_model
              (arc (objects More_samples.pies 5%positive))) = true
  ∧ side (computeArcLink getNormalizedAngle_model Sample.positionFromAngle
            (arc (objects More_samples.pies 5%positive)) 0.5 10 20) = before.
Proof.
  split; [reflexivity|].
  destruct (computeArcLink_NaN_angle getNormalizedAngle_model Sample.positionFromAngle
              (arc (objects More_samples.pies 5%positive)) 0.5 10 20)
    as [Hcenter Hside]; [right; reflexivity|].
  split; [by rewrite Hcenter|exact (Hside eq_refl)].
Defined.

Lemma useArcLinkLabels_computeExtraProps_Throw_witness :
  useArcLinkLabels_cached Sample.getLabel Sample.getColor Sample.getColor
    More_samples.first_pass_cache false
  ∧ ∀ e s',
      useArcLinkLabels_computeExtraProps Sample.getLabel Sample.getColor Sample.getColor
        More_samples.first_pass_cache false 6%float Sample.symmetric_link Sample.pie
      ≠ Throw e s'.
Proof.
  assert (Hcache : useArcLinkLabels_cached Sample.getLabel Sample.getColor Sample.getColor
                     More_samples.first_pass_cache false).
  { intros cached [= <-] _. by exists 0%float. }
  split; [exact Hcache|]. intros e s' Hthrow.
  apply (useArcLinkLabels_computeExtraProps_Throw Sample.getLabel Sample.getColor
           Sample.getColor More_samples.first_pass_cache false 6%float
           Sample.symmetric_link Sample.pie s' e Hcache) in Hthrow.
  destruct Hthrow as [Hl | (l & s1 & [= <- <-] & [Hlc | (lc & s2 & [= <- <-] & Htc)])];
    discriminate.
Defined.

Lemma useArcLinkLabels_keys_witness :
  ∃ out s',
    More_samples.labels More_samples.first_pass_cache false
      10%positive (Some 10%float) (Some 6%float) = Normal out s'
    ∧ length out = 2
    ∧ Forall (λ o : object,
                dom o = ({[ "side"; "points"; "data"; "x"; "y"; "label"; "linkColor";
                            "textAnchor"; "textColor" ]} : gset string)) out.
Proof.
  destruct (More_samples.labels More_samples.first_pass_cache false
              10%positive (Some 10%float) (Some 6%float))
    as [out s'|e s'] eqn:Hrun; [|vm_compute in Hrun; discriminate].
  exists out, s'. split; [reflexivity|]. split.
  - vm_compute in Hrun. by injection Hrun as <- _.
  - apply (useArcLinkLabels_keys getNormalizedAngle_model Sample.positionFromAngle
             radiansToDegrees_model Sample.getLabel Sample.getColor Sample.getColor
             More_samples.first_pass_cache false
             10%positive (Some 10%float) None 10%float 20%float (Some 6%float)
             More_samples.pies s' out); [|exact Hrun].
    intros cached [= <-] _. by exists 0%float.
Defined.

Lemma useArcLinkLabels_default_textOffset_witness :
  ∃ out s',
    More_samples.labels None false 10%positive None None = Normal out s'
    ∧ Forall
        (λ o : object,
           ∃ (p : Point * Point * Point) (v : number),
             o !! "points" = Some (VPoints p)
             ∧ o !! "y" = Some (VNumber (y p.2))
             ∧ o !! "x" = Some (VNumber v)
             ∧ (v = x p.2 ∨ (x p.2 = neg_zero ∧ v = 0%float)))
        out.
Proof.
  destruct (More_samples.labels None false 10%positive None None)
    as [out s'|e s'] eqn:Hrun; [|vm_compute in Hrun; discriminate].
  exists out, s'. split; [reflexivity|].
  exact (useArcLinkLabels_default_textOffset getNormalizedAngle_model
           Sample.positionFromAngle radiansToDegrees_model
           Sample.getLabel Sample.getColor Sample.getColor None false
           10%positive None None 10%float 20%float More_samples.pies s' out
           (or_introl eq_refl) Hrun).
Defined.

Lemma useArcLinkLabels_computeExtraProps_again_offset_witness :
  ∃ extra,
    useArcLinkLabels_computeExtraProps Sample.getLabel Sample.getColor Sample.getColor
      (Some (useArcLinkLabels_callback Sample.getLabel Sample.getColor Sample.getColor
               0%float))
      false 6%float Sample.symmetric_link Sample.pie = Normal extra Sample.pie
    ∧ extra !! "x" = Some (VNumber (x (points_2 Sample.symmetric_link) - 0)%float).
Proof.
  eexists. split; [reflexivity|].
  exact (useArcLinkLabels_computeExtraProps_again_offset
           Sample.getLabel Sample.getColor Sample.getColor false 0%float 6%float
           Sample.symmetric_link Sample.pie Sample.pie _ eq_refl).
Defined.

Lemma useArcLinkLabels_read_only_witness :
  ∃ out,
    More_samples.labels More_samples.first_pass_cache false
      10%positive (Some 10%float) (Some 6%float)
    = Normal out More_samples.pies
    ∧ (λ o : object, (o !! "label", o !! "textAnchor")) <$> out
      = [(Some (VString "b"), Some (VString "start"));
         (Some (VString "c"), Some (VString "start"))].
Proof.
  eexists. split.
  - apply (useArcLinkLabels_read_only getNormalizedAngle_model Sample.positionFromAngle
             radiansToDegrees_model Sample.id Sample.color Sample.color
             More_samples.first_pass_cache false
             10%positive (Some 10%float) None 10%float 20%float (Some 6%float)
             0%float More_samples.pies).
    reflexivity.
  - vm_compute. reflexivity.
Defined.
